(** * DocuSpark: a shallow embedding of [docuspark.py]

    The development follows the source file top-down: Python string
    helpers, the collaborators the program calls (PDF reader, Office
    readers, OCR engine, Pandoc, the file system), then the program's own
    functions [ensure_dir], [describe_image], [add_images_to_markdown], the
    four converters, [convert_file] and [run_pipeline].

    Conventions.
    - A Python [str] is a [string]; each character stands for one code
      point below 256, so [str.isspace] and [str.lower] are the Python
      functions restricted to that range.
    - A Python exception is represented by its message ([exn]).  A call the
      program wraps in [try] returns a [result].
    - [print] and the file-system calls append to the [trace] of the
      program state, so that the order of effects can be stated.
    - The readers can raise while a document is read, after it was opened:
      the accessors of a page and of a shape return a [result], and the
      converters keep what they gathered before the exception.
    - Two calls stand outside every [try]: [os.makedirs] in [ensure_dir]
      and the [open] of the Markdown file.  When one of them raises the
      run ends.  The computations describe these calls when they return;
      [makedirs_raises] and [open_raises] say when they raise, and
      [clash_free] describes the output trees in which none of them has
      raised.  The statements that depend on it carry one of these as a
      hypothesis. *)

From Stdlib Require Import String Ascii ZArith Lia.
From Stdlib Require Import Decimal DecimalNat DecimalString.
From stdpp Require Import base option list sorting gmap strings.

Local Open Scope string_scope.
Local Open Scope list_scope.

(** ** Python string helpers *)

Module PyStr.

(** The line feed, written ["\n"] in the source. *)
Definition nl : string := String "010"%char EmptyString.

(** [str(n)] for a non-negative integer. *)
Definition str_of_nat (n : nat) : string :=
  NilEmpty.string_of_uint (Nat.to_uint n).

(** [sep.join(parts)]. *)
Fixpoint join (sep : string) (parts : list string) : string :=
  match parts with
  | [] => ""
  | [p] => p
  | p :: rest => p +:+ sep +:+ join sep rest
  end.

(** [str.isspace] on one character (code points below 256). *)
Definition isspace (c : ascii) : bool :=
  let n := N_of_ascii c in
  ((9 <=? n) && (n <=? 13) || (28 <=? n) && (n <=? 32)
   || (n =? 133) || (n =? 160))%N.

Fixpoint lstrip (s : string) : string :=
  match s with
  | EmptyString => EmptyString
  | String c s' => if isspace c then lstrip s' else s
  end.

Fixpoint rstrip (s : string) : string :=
  match s with
  | EmptyString => EmptyString
  | String c s' =>
      match rstrip s' with
      | EmptyString => if isspace c then EmptyString else String c EmptyString
      | r => String c r
      end
  end.

(** [s.strip()]. *)
Definition strip (s : string) : string := rstrip (lstrip s).

Fixpoint all_space (s : string) : bool :=
  match s with
  | EmptyString => true
  | String c s' => isspace c && all_space s'
  end.

(** [str.lower] on one character (code points below 256). *)
Definition lower_char (c : ascii) : ascii :=
  let n := N_of_ascii c in
  if ((65 <=? n) && (n <=? 90)
      || (192 <=? n) && (n <=? 222) && negb (n =? 215))%N
  then ascii_of_N (n + 32) else c.

Fixpoint lower (s : string) : string :=
  match s with
  | EmptyString => EmptyString
  | String c s' => String (lower_char c) (lower s')
  end.

(** [s.startswith(p)]. *)
Fixpoint startswith (p s : string) : bool :=
  match p, s with
  | EmptyString, _ => true
  | String _ _, EmptyString => false
  | String a p', String b s' => Ascii.eqb a b && startswith p' s'
  end.

(** [sub in s]. *)
Fixpoint contains (sub s : string) : bool :=
  startswith sub s ||
  match s with
  | EmptyString => false
  | String _ s' => contains sub s'
  end.

(** [s.endswith(c)] for a one-character [c]. *)
Fixpoint endswith_char (c : ascii) (s : string) : bool :=
  match s with
  | EmptyString => false
  | String a EmptyString => Ascii.eqb a c
  | String _ s' => endswith_char c s'
  end.

Fixpoint rfind_from (c : ascii) (s : string) (i last : Z) : Z :=
  match s with
  | EmptyString => last
  | String a s' =>
      rfind_from c s' (i + 1) (if Ascii.eqb a c then i else last)
  end.

(** [s.rfind(c)]: the index of the last [c], or [-1]. *)
Definition rfind (c : ascii) (s : string) : Z := rfind_from c s 0 (-1).

(** [s[:i]] and [s[i:]] for [0 <= i]. *)
Fixpoint slice_to (i : nat) (s : string) : string :=
  match i, s with
  | S i', String c s' => String c (slice_to i' s')
  | _, _ => EmptyString
  end.

Fixpoint slice_from (i : nat) (s : string) : string :=
  match i, s with
  | S i', String _ s' => slice_from i' s'
  | _, _ => s
  end.

(** [s[i:i+1]]. *)
Definition char_at (i : nat) (s : string) : string := slice_to 1 (slice_from i s).

End PyStr.

Import PyStr.

(** ** [os.path] helpers (POSIX flavour) *)

Module PosixPath.

(** [os.path.join(a, b)]. *)
Definition join (a b : string) : string :=
  if startswith "/" b then b
  else if String.eqb a "" || endswith_char "/" a then a +:+ b
  else a +:+ "/" +:+ b.

(** The [while] loop of [genericpath._splitext], which skips the leading
    dots of the file name; [steps] is [dotIndex - filenameIndex]. *)
Fixpoint splitext_scan (p : string) (filenameIndex steps dotIndex : nat)
  : string * string :=
  match steps with
  | O => (p, "")
  | S k =>
      if negb (String.eqb (char_at filenameIndex p) ".")
      then (slice_to dotIndex p, slice_from dotIndex p)
      else splitext_scan p (S filenameIndex) k dotIndex
  end.

(** [os.path.splitext(p)]. *)
Definition splitext (p : string) : string * string :=
  let sepIndex := rfind "/" p in
  let dotIndex := rfind "." p in
  if (dotIndex >? sepIndex)%Z
  then splitext_scan p (Z.to_nat (sepIndex + 1))
         (Z.to_nat (dotIndex - (sepIndex + 1))) (Z.to_nat dotIndex)
  else (p, "").

(** The directories that exist after [os.makedirs(p, exist_ok=True)]: the
    path itself and each of its leading parts that ends before a
    separator. *)
Fixpoint dir_chain_from (pre p : string) : list string :=
  match p with
  | EmptyString => [pre]
  | String c p' =>
      (if Ascii.eqb c "/" then [pre] else [])
        ++ dir_chain_from (pre +:+ String c EmptyString) p'
  end.

Definition dir_chain (p : string) : list string :=
  filter (fun d => d ≠ "") (dir_chain_from "" p).

(** [s.split("/")]; [cur] is the component being read. *)
Fixpoint split_sep (cur s : string) : list string :=
  match s with
  | EmptyString => [cur]
  | String c s' =>
      if Ascii.eqb c "/" then cur :: split_sep "" s'
      else split_sep (cur +:+ String c EmptyString) s'
  end.

(** One turn of the [for comp in comps] loop of [posixpath.normpath]. *)
Definition normpath_step (initial_slashes : nat) (new_comps : list string)
    (comp : string) : list string :=
  if String.eqb comp "" || String.eqb comp "." then new_comps
  else if negb (String.eqb comp "..")
          || (Nat.eqb initial_slashes 0
              && match new_comps with [] => true | _ :: _ => false end)
          || match last new_comps with
             | Some l => String.eqb l ".."
             | None => false
             end
  then new_comps ++ [comp]
  else removelast new_comps.

(** [os.path.normpath(path)]: the spelling under which two paths name the
    same entry of the file system (no symbolic links). *)
Definition normpath (path : string) : string :=
  if String.eqb path "" then "."
  else
    let initial_slashes :=
      if startswith "/" path then
        if startswith "//" path && negb (startswith "///" path) then 2 else 1
      else 0 in
    let comps :=
      foldl (normpath_step initial_slashes) [] (split_sep "" path) in
    let path :=
      PyStr.join "" (replicate initial_slashes "/") +:+ PyStr.join "/" comps in
    if String.eqb path "" then "." else path.

End PosixPath.

(** ** Configuration *)

Definition RAW_DIR : string := "data".
Definition OUTPUT_DIR : string := "clean_md".
Definition SUPPORTED_TYPES : gset string :=
  {[ ".pdf"; ".docx"; ".pptx"; ".txt"; ".html"; ".htm"; ".rtf" ]}.

(** ** Data model and collaborators *)

(** The message of a Python exception. *)
Definition exn : Type := string.

(** Outcome of a call that the program wraps in [try ... except]. *)
Inductive result (A : Type) : Type :=
  | Ok (a : A)
  | Raise (e : exn).
Arguments Ok {A} a.
Arguments Raise {A} e.

#[global] Instance result_eq_dec {A} `{EqDecision A} : EqDecision (result A).
Proof. solve_decision. Defined.

(** The lines the program prints. *)
Inductive message : Type :=
  | MsgStarting
  | MsgNoFolder (dir : string)
  | MsgProcessing (input_path : string)
  | MsgSkipped (input_path : string)
  | MsgSaveFailed (img_name : string) (e : exn)
  | MsgDone
  | MsgPdfFailed (input_path : string) (e : exn)
  | MsgDocxFailed (input_path : string) (e : exn)
  | MsgPptxFailed (input_path : string) (e : exn)
  | MsgPandocFailed (input_path : string) (e : exn).

(** Effects in the order the program performs them. *)
Inductive event : Type :=
  | EvPrint (m : message)
  | EvMakedirs (path : string)
  | EvConvert (input_path : string)
  | EvSave (img_path : string)
  | EvWrite (md_output_path : string).

#[local] Set Warnings "-register-all".

(** The input tree as [os.walk] sees it: for one directory, its
    sub-directories and its other entries, each in the order the operating
    system lists them. *)
Inductive tree : Type :=
  | Node (subdirs : list (string * tree)) (nondirs : list string).

Section DocuSpark.

(** A decoded in-memory bitmap ([PIL.Image]). *)
Context {image : Type}.

(** An entry of an extractor's image list: [(im, img_name)]. *)
Definition raw_image : Type := image * string.

(** What a converter returns: [(text, images)], [text] possibly [None]. *)
Definition extraction : Type := option string * list raw_image.

(** A [pdfplumber] page.  [extract_text] is what [page.extract_text()]
    returns, or the exception it raises; [page_images] is what reading
    [page.images] gives, or the exception it raises, with for each entry
    of the list the bitmap that cropping and rasterising it gives ([None]
    when that raises). *)
Record pdf_page : Type := {
  extract_text : result (option string);
  page_images : result (list (option image))
}.

(** A relationship of a [python-docx] document part: [target_ref] and the
    bitmap decoded from [target_part.blob] ([None] when that raises). *)
Record relationship : Type := {
  target_ref : string;
  rel_image : option image
}.

Record docx_document : Type := {
  paragraphs : list string;
  rels : list relationship
}.

(** A [python-pptx] shape.  [shape_text] is what reading [shape.text]
    gives: [Ok None] when the shape has no such attribute, [Raise] when the
    read raises anything but [AttributeError], which [hasattr] lets through.
    [shape_type] is what reading [shape.shape_type] gives, or the exception
    it raises.  [shape_image] is the bitmap decoded from [shape.image.blob]
    ([None] when that raises). *)
Record shape : Type := {
  shape_text : result (option string);
  shape_type : result (option Z);
  shape_image : option image
}.

Record slide : Type := { shapes : list shape }.

(** The external collaborators.  [pdfplumber_open], [Document] and
    [Presentation] are the outcome of opening a document and listing its
    pages, its paragraphs and relationships, or its slides; the reads made
    after that, of the text and images of a page and of the text and type
    of a shape, have outcomes of their own.  [image_save im path] is the
    outcome of [im.save(path)]; when it raises, [save_truncates im path]
    tells whether it had already opened [path] for writing, as it has when
    the encoder is what fails. *)
Record world : Type := {
  pdfplumber_open : string -> result (list pdf_page);
  Document : string -> result docx_document;
  Presentation : string -> result (list slide);
  pypandoc_convert_file : string -> result string;
  image_to_string : image -> result string;
  image_save : image -> string -> result unit;
  save_truncates : image -> string -> bool;
  image_open_error : string -> exn;
  relpath : string -> string -> string;
  raw_tree : option tree
}.

(** What a file of the output tree holds; [Truncated] is what is left of
    a file that a failed [im.save] had opened for writing. *)
Inductive file_content : Type :=
  | TextFile (s : string)
  | ImageFile (im : image)
  | Truncated.

(** The program state: the output directories and files, and the trace
    of effects so far. *)
Record state : Type := {
  dirs : gset string;
  files : gmap string file_content;
  trace : list event
}.

(** State-passing computations. *)
Definition M (A : Type) : Type := state -> A * state.

Definition ret {A} (a : A) : M A := fun st => (a, st).

Definition bind {A B} (c : M A) (k : A -> M B) : M B :=
  fun st => let '(a, st') := c st in k a st'.

Definition emit (ev : event) : M unit :=
  fun st => (tt, {| dirs := dirs st; files := files st;
                    trace := trace st ++ [ev] |}).

Definition print (m : message) : M unit := emit (EvPrint m).

End DocuSpark.

Arguments raw_image : clear implicits.
Arguments extraction : clear implicits.
Arguments pdf_page : clear implicits.
Arguments relationship : clear implicits.
Arguments docx_document : clear implicits.
Arguments shape : clear implicits.
Arguments slide : clear implicits.
Arguments world : clear implicits.
Arguments file_content : clear implicits.
Arguments Truncated {image}.
Arguments state : clear implicits.
Arguments M : clear implicits.

Notation "'let*' x ':=' c 'in' k" := (bind c (fun x => k))
  (at level 10, x binder, c at level 100, k at level 200).
Notation "c ';;' k" := (bind c (fun _ => k))
  (at level 100, k at level 200, right associativity).

Fixpoint for_each {image A : Type} (l : list A) (body : A -> M image unit)
  : M image unit :=
  match l with
  | [] => ret tt
  | x :: rest => body x ;; for_each rest body
  end.

(** ** Built-ins the pipeline calls *)

(** The order of [sorted] on strings: code point by code point. *)
Definition str_le (a b : string) : Prop := String.leb a b = true.

#[global] Instance str_le_dec : RelDecision str_le.
Proof. intros a b. unfold str_le. apply _. Defined.

(** [sorted(names)]. *)
Definition sorted (names : list string) : list string :=
  merge_sort str_le names.

(** [os.walk(top)], top-down: a directory is yielded before its
    sub-directories, which are entered in the order of the listing. *)
Fixpoint walk (top : string) (t : tree)
  : list (string * list string * list string) :=
  match t with
  | Node subdirs nondirs =>
      (top, map fst subdirs, nondirs)
        :: flat_map (fun d => walk (PosixPath.join top (fst d)) (snd d))
             subdirs
  end.

(** ** The program *)

Section Program.

Context {image : Type}.
Variable w : world image.

#[local] Abbreviation M := (M image).
#[local] Abbreviation raw_image := (raw_image image).
#[local] Abbreviation extraction := (extraction image).
#[local] Abbreviation files_map := (gmap string (file_content image)).

(** *** Helper functions *)

(** When [os.makedirs(path, exist_ok=True)] raises in the output tree of
    [st]: [path] is empty, or a file stands at [path] or at one of its
    leading parts, where the call needs a directory.  Paths are compared
    as [os.path.normpath] spells them. *)
Definition makedirs_raises (st : state image) (path : string) : Prop :=
  path = ""
  ∨ ∃ d p, d ∈ PosixPath.dir_chain path ∧ is_Some (files st !! p)
           ∧ PosixPath.normpath d = PosixPath.normpath p.


(** [ensure_dir(path)]: [os.makedirs(path, exist_ok=True)], when the call
    returns, that is when [makedirs_raises st path] does not hold.  The
    program does not catch the exception of this call, nor that of the
    [open] of the Markdown file: when one of them raises, the run ends
    there.  The computations below describe the runs in which these calls
    return; the statements about them say so. *)
Definition ensure_dir (path : string) : M unit :=
  fun st =>
    (tt, {| dirs := dirs st ∪ list_to_set (PosixPath.dir_chain path);
            files := files st;
            trace := trace st ++ [EvMakedirs path] |}).

(** [Image.open(image_path)], reading the output tree. *)
Definition Image_open (fs : files_map) (image_path : string)
  : result image :=
  match fs !! image_path with
  | Some (ImageFile im) => Ok im
  | _ => Raise (image_open_error w image_path)
  end.

Definition NO_TEXT : string :=
  "No readable text detected. Consider using a captioning model.".

Definition describe_failure (e : exn) : string :=
  "Failed to describe image: " +:+ e.

(** [describe_image(image_path)]. *)
Definition describe_image (fs : files_map) (image_path : string) : string :=
  match Image_open fs image_path with
  | Raise e => describe_failure e
  | Ok img =>
      match image_to_string w img with
      | Raise e => describe_failure e
      | Ok text =>
          let text := if String.eqb (strip text) "" then NO_TEXT else text in
          strip text
      end
  end.

Definition images_heading : string :=
  nl +:+ nl +:+ "## Extracted Images" +:+ nl.

Definition figure_line (idx : nat) (rel_img_path : string) : string :=
  "![Figure " +:+ str_of_nat idx +:+ "](" +:+ rel_img_path +:+ ")".

Definition description_line (description : string) : string :=
  "**Description:** " +:+ description +:+ nl.

(** The [for idx, img_path in enumerate(image_paths, start=1)] loop; [idx]
    is the counter and [lines] the list built so far. *)
Fixpoint add_images_loop (fs : files_map) (idx : nat)
    (image_paths : list string) (lines : list string) : list string :=
  match image_paths with
  | [] => lines
  | img_path :: rest =>
      let rel_img_path := relpath w img_path OUTPUT_DIR in
      let lines := lines ++ [figure_line idx rel_img_path] in
      let description := describe_image fs img_path in
      let lines := lines ++ [description_line description] in
      add_images_loop fs (S idx) rest lines
  end.

(** The list [lines] at the end of [add_images_to_markdown], for a
    non-empty [image_paths]. *)
Definition markdown_lines (fs : files_map) (md : string)
    (image_paths : list string) : list string :=
  add_images_loop fs 1 image_paths [md; images_heading].

(** [add_images_to_markdown(md, image_paths)]. *)
Definition add_images_to_markdown (fs : files_map) (md : string)
    (image_paths : list string) : string :=
  match image_paths with
  | [] => md
  | _ :: _ => join nl (markdown_lines fs md image_paths)
  end.

(** *** File converters *)

Definition pdf_img_name (page_idx img_idx : nat) : string :=
  "img_" +:+ str_of_nat page_idx +:+ "_" +:+ str_of_nat img_idx +:+ ".png".

Definition docx_img_name (idx : nat) : string :=
  "img_" +:+ str_of_nat idx +:+ ".png".

Definition pptx_img_name (slide_idx : nat) : string :=
  "img_slide" +:+ str_of_nat slide_idx +:+ ".png".

Definition slide_heading (slide_idx : nat) : string :=
  "# Slide " +:+ str_of_nat slide_idx.

(** [for img_idx, img in enumerate(page.images, start=1)]. *)
Fixpoint pdf_images_loop (page_idx img_idx : nat)
    (imgs : list (option image)) (images : list raw_image)
  : list raw_image :=
  match imgs with
  | [] => images
  | Some im :: rest =>
      pdf_images_loop page_idx (S img_idx) rest
        (images ++ [(im, pdf_img_name page_idx img_idx)])
  | None :: rest => pdf_images_loop page_idx (S img_idx) rest images
  end.

(** [page.extract_text() or ""]. *)
Definition text_or_empty (t : option string) : string :=
  match t with
  | Some s => if String.eqb s "" then "" else s
  | None => ""
  end.

(** [for page_idx, page in enumerate(pdf.pages, start=1)].  The loop
    stands inside the outer [try]: when [page.extract_text()] or
    [page.images] raises, it ends with the lists built so far and the
    exception. *)
Fixpoint pdf_pages_loop (page_idx : nat) (pages : list (pdf_page image))
    (text_parts : list string) (images : list raw_image)
  : list string * list raw_image * option exn :=
  match pages with
  | [] => (text_parts, images, None)
  | page :: rest =>
      match extract_text page with
      | Raise e => (text_parts, images, Some e)
      | Ok t =>
          let text_parts := text_parts ++ [text_or_empty t] in
          match page_images page with
          | Raise e => (text_parts, images, Some e)
          | Ok imgs =>
              let images := pdf_images_loop page_idx 1 imgs images in
              pdf_pages_loop (S page_idx) rest text_parts images
          end
      end
  end.

(** The [except Exception as e] clause of a converter, for the exception
    the [try] block ended with, if any. *)
Definition on_failure (msg : exn -> message) (raised : option exn) : M unit :=
  match raised with
  | Some e => print (msg e)
  | None => ret tt
  end.

(** [convert_pdf(input_path)]. *)
Definition convert_pdf (input_path : string) : M extraction :=
  match pdfplumber_open w input_path with
  | Ok pages =>
      let '(text_parts, images, raised) := pdf_pages_loop 1 pages [] [] in
      on_failure (MsgPdfFailed input_path) raised ;;
      ret (Some (join (nl +:+ nl) text_parts), images)
  | Raise e =>
      print (MsgPdfFailed input_path e) ;;
      ret (Some (join (nl +:+ nl) []), [])
  end.

(** [for idx, rel in enumerate(doc.part.rels.values(), start=1)]. *)
Fixpoint docx_rels_loop (idx : nat) (rs : list (relationship image))
    (images : list raw_image) : list raw_image :=
  match rs with
  | [] => images
  | rel :: rest =>
      if contains "image" (target_ref rel) then
        match rel_image rel with
        | Some im =>
            docx_rels_loop (S idx) rest (images ++ [(im, docx_img_name idx)])
        | None => docx_rels_loop (S idx) rest images
        end
      else docx_rels_loop (S idx) rest images
  end.

(** [convert_docx(input_path)]. *)
Definition convert_docx (input_path : string) : M extraction :=
  match Document w input_path with
  | Ok doc =>
      let text_parts := [] ++ paragraphs doc in
      let images := docx_rels_loop 1 (rels doc) [] in
      ret (Some (join nl text_parts), images)
  | Raise e =>
      print (MsgDocxFailed input_path e) ;;
      ret (Some (join nl []), [])
  end.

(** [for shape in slide.shapes].  The tests on [shape.text] and
    [shape.shape_type] stand outside the inner [try]: when one of them
    raises, the loop ends with the lists built so far and the exception. *)
Fixpoint pptx_shapes_loop (slide_idx : nat) (shs : list (shape image))
    (text_parts : list string) (images : list raw_image)
  : list string * list raw_image * option exn :=
  match shs with
  | [] => (text_parts, images, None)
  | sh :: rest =>
      match shape_text sh with
      | Raise e => (text_parts, images, Some e)
      | Ok t =>
          let text_parts :=
            match t with
            | Some t => text_parts ++ [t]
            | None => text_parts
            end in
          match shape_type sh with
          | Raise e => (text_parts, images, Some e)
          | Ok ty =>
              if bool_decide (ty = Some 13%Z) then
                match shape_image sh with
                | Some im =>
                    pptx_shapes_loop slide_idx rest text_parts
                      (images ++ [(im, pptx_img_name slide_idx)])
                | None => pptx_shapes_loop slide_idx rest text_parts images
                end
              else pptx_shapes_loop slide_idx rest text_parts images
          end
      end
  end.

(** [for slide_idx, slide in enumerate(prs.slides, start=1)]; an exception
    of the inner loop ends this one too. *)
Fixpoint pptx_slides_loop (slide_idx : nat) (slides : list (slide image))
    (text_parts : list string) (images : list raw_image)
  : list string * list raw_image * option exn :=
  match slides with
  | [] => (text_parts, images, None)
  | sl :: rest =>
      let text_parts := text_parts ++ [slide_heading slide_idx] in
      let '(text_parts, images, raised) :=
        pptx_shapes_loop slide_idx (shapes sl) text_parts images in
      match raised with
      | Some e => (text_parts, images, Some e)
      | None => pptx_slides_loop (S slide_idx) rest text_parts images
      end
  end.

(** [convert_pptx(input_path)]. *)
Definition convert_pptx (input_path : string) : M extraction :=
  match Presentation w input_path with
  | Ok slides =>
      let '(text_parts, images, raised) := pptx_slides_loop 1 slides [] [] in
      on_failure (MsgPptxFailed input_path) raised ;;
      ret (Some (join (nl +:+ nl) text_parts), images)
  | Raise e =>
      print (MsgPptxFailed input_path e) ;;
      ret (Some (join (nl +:+ nl) []), [])
  end.

(** [convert_generic(input_path)]. *)
Definition convert_generic (input_path : string) : M extraction :=
  match pypandoc_convert_file w input_path with
  | Ok text => ret (Some text, [])
  | Raise e =>
      print (MsgPandocFailed input_path e) ;;
      ret (None, [])
  end.

Definition GENERIC_TYPES : gset string :=
  {[ ".txt"; ".html"; ".htm"; ".rtf" ]}.

(** [convert_file(input_path)]. *)
Definition convert_file (input_path : string) : M extraction :=
  let ext := lower (snd (PosixPath.splitext input_path)) in
  if String.eqb ext ".pdf" then convert_pdf input_path
  else if String.eqb ext ".docx" then convert_docx input_path
  else if String.eqb ext ".pptx" then convert_pptx input_path
  else if bool_decide (ext ∈ GENERIC_TYPES) then convert_generic input_path
  else ret (None, []).

(** *** Pipeline *)

(** What a failed [im.save] that had opened [img_path] for writing leaves:
    a file that was there is truncated; a file the call created is removed
    again. *)
Definition truncate_file (img_path : string) (fs : files_map) : files_map :=
  match fs !! img_path with
  | Some _ => <[img_path := Truncated]> fs
  | None => fs
  end.

(** [im.save(img_path)]: on success the file holds the bitmap. *)
Definition im_save (im : image) (img_path : string) : M (result unit) :=
  fun st =>
    match image_save w im img_path with
    | Ok _ =>
        (Ok tt, {| dirs := dirs st;
                   files := <[img_path := ImageFile im]> (files st);
                   trace := trace st ++ [EvSave img_path] |})
    | Raise e =>
        (Raise e,
         if save_truncates w im img_path
         then {| dirs := dirs st;
                 files := truncate_file img_path (files st);
                 trace := trace st |}
         else st)
    end.

(** [with open(md_output_path, "w") as f: f.write(markdown_text)], when the
    call returns, that is when [open_raises st md_output_path] does not
    hold. *)
Definition write_text (md_output_path markdown_text : string) : M unit :=
  fun st =>
    (tt, {| dirs := dirs st;
            files := <[md_output_path := TextFile markdown_text]> (files st);
            trace := trace st ++ [EvWrite md_output_path] |}).

(** The output files, as the calls made while assembling read them. *)
Definition read_files : M files_map := fun st => (files st, st).

(** [for im, img_name in images], with [img_paths] the list built so far. *)
Fixpoint save_images_loop (output_dir : string) (images : list raw_image)
    (img_paths : list string) : M (list string) :=
  match images with
  | [] => ret img_paths
  | (im, img_name) :: rest =>
      let img_folder := PosixPath.join output_dir "images" in
      ensure_dir img_folder ;;
      let img_path := PosixPath.join img_folder img_name in
      let* saved := im_save im img_path in
      match saved with
      | Ok _ => save_images_loop output_dir rest (img_paths ++ [img_path])
      | Raise e =>
          print (MsgSaveFailed img_name e) ;;
          save_images_loop output_dir rest img_paths
      end
  end.

Definition output_dir_of (root : string) : string :=
  PosixPath.join OUTPUT_DIR (relpath w root RAW_DIR).

Definition file_ext (file : string) : string :=
  lower (snd (PosixPath.splitext file)).

(** The call [convert_file(input_path)] as the pipeline makes it. *)
Definition dispatch (input_path : string) : M extraction :=
  emit (EvConvert input_path) ;; convert_file input_path.

(** The body of [for file in sorted(files)]. *)
Definition process_file (root file : string) : M unit :=
  let ext := file_ext file in
  if negb (bool_decide (ext ∈ SUPPORTED_TYPES)) then ret tt
  else
    let input_path := PosixPath.join root file in
    let output_dir := output_dir_of root in
    ensure_dir output_dir ;;
    let md_filename := fst (PosixPath.splitext file) +:+ ".md" in
    let md_output_path := PosixPath.join output_dir md_filename in
    print (MsgProcessing input_path) ;;
    let* converted := dispatch input_path in
    match fst converted with
    | None => print (MsgSkipped input_path)
    | Some markdown_text =>
        let* img_paths := save_images_loop output_dir (snd converted) [] in
        let* fs := read_files in
        let markdown_text := add_images_to_markdown fs markdown_text img_paths in
        write_text md_output_path markdown_text
    end.

(** The body of [for root, dirs, files in os.walk(RAW_DIR)]. *)
Definition process_dir (entry : string * list string * list string)
  : M unit :=
  let '(root, _, files) := entry in
  for_each (sorted files) (process_file root).

(** [run_pipeline()]. *)
Definition run_pipeline : M unit :=
  print MsgStarting ;;
  match raw_tree w with
  | None => print (MsgNoFolder RAW_DIR)
  | Some t =>
      for_each (walk RAW_DIR t) process_dir ;;
      print MsgDone
  end.

End Program.

(** ** Observations on the program's output *)

(** The decimal digit a character stands for, as a constructor of
    [Decimal.uint]. *)
Definition digit (c : ascii) : option (uint → uint) :=
  (if Ascii.eqb c "0" then Some D0 else if Ascii.eqb c "1" then Some D1
   else if Ascii.eqb c "2" then Some D2 else if Ascii.eqb c "3" then Some D3
   else if Ascii.eqb c "4" then Some D4 else if Ascii.eqb c "5" then Some D5
   else if Ascii.eqb c "6" then Some D6 else if Ascii.eqb c "7" then Some D7
   else if Ascii.eqb c "8" then Some D8 else if Ascii.eqb c "9" then Some D9
   else None)%char.

(** Reads the longest run of digits at the start of [s]. *)
Fixpoint read_uint (s : string) : uint * string :=
  match s with
  | EmptyString => (Nil, EmptyString)
  | String c s' =>
      match digit c with
      | Some d => let '(u, rest) := read_uint s' in (d u, rest)
      | None => (Nil, s)
      end
  end.

(** The number [N] of a line of the form [![Figure N](...]. *)
Definition figure_number (line : string) : option nat :=
  if startswith "![Figure " line then
    match read_uint (slice_from 9 line) with
    | (Nil, _) => None
    | (u, rest) => if startswith "](" rest then Some (Nat.of_uint u) else None
    end
  else None.

Definition no_leading_digit (s : string) : Prop :=
  match s with
  | EmptyString => True
  | String c _ => digit c = None
  end.

Section Observations.

Context {image : Type}.
Variable w : world image.

(** The path under which the pipeline saves an extracted image, when
    [im.save] succeeds for it. *)
Definition saved_path (output_dir : string) (entry : raw_image image)
  : option string :=
  let img_path :=
    PosixPath.join (PosixPath.join output_dir "images") (snd entry) in
  match image_save w (fst entry) img_path with
  | Ok _ => Some img_path
  | Raise _ => None
  end.

(** The figure numbers of the lines the assembler adds after the base
    text. *)
Definition figure_numbers (lines : list string) : list nat :=
  omap figure_number (drop 1 lines).

(** The image the DOCX converter takes from the relationship [rel] met at
    counter value [idx], if any. *)
Definition docx_image_at (idx : nat) (rel : relationship image)
  : option (raw_image image) :=
  if contains "image" (target_ref rel)
  then (fun im => (im, "img_" +:+ str_of_nat idx +:+ ".png")) <$> rel_image rel
  else None.

(** The text of a shape, when it has one and reading it does not raise. *)
Definition text_of_shape (sh : shape image) : option string :=
  match shape_text sh with
  | Ok t => t
  | Raise _ => None
  end.

(** The text parts of one slide: its heading, then the text of each shape
    that has one, in shape order. *)
Definition slide_parts (slide_idx : nat) (sl : slide image) : list string :=
  ("# Slide " +:+ str_of_nat slide_idx) :: omap text_of_shape (shapes sl).

(** The parts of all slides, in slide order, slides numbered from
    [slide_idx]. *)
Fixpoint deck_parts (slide_idx : nat) (slides : list (slide image))
  : list (list string) :=
  match slides with
  | [] => []
  | sl :: rest => slide_parts slide_idx sl :: deck_parts (S slide_idx) rest
  end.

(** The PPTX text as the specification words it: within a slide the heading
    and the shape texts on consecutive lines, the slides separated by a
    blank line. *)
Definition pptx_text_spec (slides : list (slide image)) : string :=
  join (nl +:+ nl) (map (join nl) (deck_parts 1 slides)).

(** *** What a converter has read when the reader raises

    A converter stops at the first page or shape whose read raises and
    keeps what it gathered before.  [pages_read] and [slides_read] give the
    part of the document gathered by then, as a document that is read
    without raising; [pdf_failure] and [deck_failure] give the exception. *)

(** The text of a page, as [page.extract_text() or ""]. *)
Definition page_text (page : pdf_page image) : string :=
  match extract_text page with
  | Ok t => text_or_empty t
  | Raise _ => ""
  end.

(** The image regions of a page. *)
Definition page_regions (page : pdf_page image) : list (option image) :=
  match page_images page with
  | Ok imgs => imgs
  | Raise _ => []
  end.

(** The pages the PDF converter gathers: those before the first page
    whose read raises, and that page with its text alone when it is
    [page.images] that raises. *)
Fixpoint pages_read (pages : list (pdf_page image)) : list (pdf_page image) :=
  match pages with
  | [] => []
  | page :: rest =>
      match extract_text page, page_images page with
      | Raise _, _ => []
      | Ok t, Raise _ => [ {| extract_text := Ok t; page_images := Ok [] |} ]
      | Ok _, Ok _ => page :: pages_read rest
      end
  end.

(** The exception that ends the reading of the pages, if any. *)
Fixpoint pdf_failure (pages : list (pdf_page image)) : option exn :=
  match pages with
  | [] => None
  | page :: rest =>
      match extract_text page, page_images page with
      | Raise e, _ => Some e
      | Ok _, Raise e => Some e
      | Ok _, Ok _ => pdf_failure rest
      end
  end.

(** The shapes of a slide the PPTX converter gathers: those before the
    first shape whose read raises, and that shape with its text alone when
    it is [shape.shape_type] that raises. *)
Fixpoint shapes_read (shs : list (shape image)) : list (shape image) :=
  match shs with
  | [] => []
  | sh :: rest =>
      match shape_text sh, shape_type sh with
      | Raise _, _ => []
      | Ok t, Raise _ =>
          [ {| shape_text := Ok t; shape_type := Ok None;
               shape_image := None |} ]
      | Ok _, Ok _ => sh :: shapes_read rest
      end
  end.

(** The exception that ends the reading of the shapes, if any. *)
Fixpoint shapes_failure (shs : list (shape image)) : option exn :=
  match shs with
  | [] => None
  | sh :: rest =>
      match shape_text sh, shape_type sh with
      | Raise e, _ => Some e
      | Ok _, Raise e => Some e
      | Ok _, Ok _ => shapes_failure rest
      end
  end.

(** The same for a deck: the slides before the first one with a shape
    whose read raises, and that slide with the shapes gathered from it. *)
Fixpoint slides_read (slides : list (slide image)) : list (slide image) :=
  match slides with
  | [] => []
  | sl :: rest =>
      match shapes_failure (shapes sl) with
      | Some _ => [ {| shapes := shapes_read (shapes sl) |} ]
      | None => sl :: slides_read rest
      end
  end.

Fixpoint deck_failure (slides : list (slide image)) : option exn :=
  match slides with
  | [] => None
  | sl :: rest =>
      match shapes_failure (shapes sl) with
      | Some e => Some e
      | None => deck_failure rest
      end
  end.

End Observations.

(** ** Observations on the trace *)

(** The input paths handed to [convert_file], in order. *)
Definition dispatched (tr : list event) : list string :=
  omap (fun ev => match ev with EvConvert p => Some p | _ => None end) tr.

(** The paths handed to [ensure_dir], in order. *)
Definition made_dirs (tr : list event) : list string :=
  omap (fun ev => match ev with EvMakedirs p => Some p | _ => None end) tr.


(** The state [st] after the further events [evs], directories and files
    unchanged. *)
Definition logged {image : Type} (evs : list event) (st : state image)
  : state image :=
  {| dirs := dirs st; files := files st; trace := trace st ++ evs |}.

(** ** The claimed traversal order *)

(** Sub-directories compared by name. *)
Definition dir_le (d1 d2 : string * tree) : Prop := str_le (fst d1) (fst d2).

#[global] Instance dir_le_dec : RelDecision dir_le.
Proof. intros d1 d2. unfold dir_le. apply _. Defined.






(** ** A sample world *)

Module Sample.

(** The components of a relative path, without empty and [.] parts. *)
Definition components (p : string) : list string :=
  filter (fun c => c ≠ "" ∧ c ≠ ".") (PosixPath.split_sep "" p).

Fixpoint strip_common (a b : list string) : list string * list string :=
  match a, b with
  | x :: a', y :: b' => if String.eqb x y then strip_common a' b' else (a, b)
  | _, _ => (a, b)
  end.

(** [os.path.relpath(path, start)] for relative paths without [..]. *)
Definition relpath_relative (path start : string) : string :=
  let '(start_rest, path_rest) :=
    strip_common (components start) (components path) in
  match (replicate (length start_rest) ".." ++ path_rest)%list with
  | [] => "."
  | rel => PyStr.join "/" rel
  end.

Definition deck : list (slide nat) :=
  [ {| shapes :=
         [ {| shape_text := Ok (Some "a"); shape_type := Ok (Some 1%Z);
              shape_image := None |};
           {| shape_text := Ok (Some "b"); shape_type := Ok (Some 17%Z);
              shape_image := None |};
           {| shape_text := Ok None; shape_type := Ok (Some 13%Z);
              shape_image := Some 3 |} ] |};
    {| shapes := [] |} ].

(** A deck whose first slide holds, between two pictures, a shape whose
    type the reader cannot tell. *)
Definition odd_deck : list (slide nat) :=
  [ {| shapes :=
         [ {| shape_text := Ok (Some "Intro"); shape_type := Ok (Some 17%Z);
              shape_image := None |};
           {| shape_text := Ok None; shape_type := Ok (Some 13%Z);
              shape_image := Some 4 |};
           {| shape_text := Ok (Some "chart");
              shape_type := Raise "shape type not recognised";
              shape_image := None |};
           {| shape_text := Ok None; shape_type := Ok (Some 13%Z);
              shape_image := Some 5 |} ] |};
    {| shapes :=
         [ {| shape_text := Ok (Some "End"); shape_type := Ok (Some 17%Z);
              shape_image := None |} ] |} ].

(** A deck with two pictures on one slide, the second of which the PNG
    encoder refuses. *)
Definition mixed_deck : list (slide nat) :=
  [ {| shapes :=
         [ {| shape_text := Ok None; shape_type := Ok (Some 13%Z);
              shape_image := Some 4 |};
           {| shape_text := Ok None; shape_type := Ok (Some 13%Z);
              shape_image := Some 9 |} ] |} ].

Definition memo : docx_document nat :=
  {| paragraphs := ["Dear all"; "Regards"];
     rels :=
       [ {| target_ref := "styles.xml"; rel_image := None |};
         {| target_ref := "media/image1.png"; rel_image := Some 5 |};
         {| target_ref := "media/image2.png"; rel_image := None |};
         {| target_ref := "media/image3.jpeg"; rel_image := Some 6 |} ] |}.

Definition report : list (pdf_page nat) :=
  [ {| extract_text := Ok (Some "page one");
       page_images := Ok [Some 7; None; Some 9] |};
    {| extract_text := Ok None; page_images := Ok [] |} ].

(** A PDF whose second page the reader fails on. *)
Definition torn : list (pdf_page nat) :=
  [ {| extract_text := Ok (Some "page one"); page_images := Ok [Some 7] |};
    {| extract_text := Raise "bad page stream"; page_images := Ok [Some 1] |};
    {| extract_text := Ok (Some "page three"); page_images := Ok [] |} ].

Definition input : tree :=
  Node [ ("b", Node [] ["x.html"]); ("a", Node [] ["y.html"]) ]
       [ "notes.html"; "report.pdf"; "deck.pptx"; "table.csv"; "broken.rtf";
         "memo.docx" ].

(** A world with a few documents.  The conversion tool has no reader for
    the [.txt] extension and dies on [data/broken.rtf].  Image 7 is blank,
    image 8 makes the OCR engine fail, image 9 is refused by the PNG
    encoder, after the target was opened. *)
Definition world : world nat :=
  {| pdfplumber_open := fun p =>
       if String.eqb p "data/report.pdf" then Ok report
       else if String.eqb p "data/torn.pdf" then Ok torn
       else Raise "not a PDF";
     Document := fun p =>
       if String.eqb p "data/memo.docx" then Ok memo
       else Raise "not a Word file";
     Presentation := fun p =>
       if String.eqb p "data/deck.pptx" then Ok deck
       else if String.eqb p "data/odd.pptx" then Ok odd_deck
       else if String.eqb p "data/mixed.pptx" then Ok mixed_deck
       else Raise "not a PowerPoint file";
     pypandoc_convert_file := fun p =>
       if String.eqb p "data/broken.rtf" then Raise "pandoc died"
       else if String.eqb (lower (snd (PosixPath.splitext p))) ".txt"
       then Raise "Invalid input format"
       else Ok "hello";
     image_to_string := fun im =>
       if Nat.eqb im 7 then Ok ("  " +:+ nl)
       else if Nat.eqb im 8 then Raise "engine error"
       else Ok (" Total: 42 " +:+ nl);
     image_save := fun im _ =>
       if Nat.eqb im 9 then Raise "cannot write mode CMYK as PNG" else Ok tt;
     save_truncates := fun im _ => Nat.eqb im 9;
     image_open_error := fun p => "cannot identify image file " +:+ p;
     relpath := relpath_relative;
     raw_tree := Some input |}.

Definition empty_state : state nat :=
  {| dirs := ∅; files := ∅; trace := [] |}.

Definition pictures : gmap string (file_content nat) :=
  {[ "clean_md/images/blank.png" := ImageFile 7;
     "clean_md/images/bad.png" := ImageFile 8;
     "clean_md/images/total.png" := ImageFile 1 ]}.

Definition saved : list string :=
  [ "clean_md/images/blank.png"; "clean_md/images/total.png" ].

End Sample.

(** ** Observations on the converters *)

Section ConverterObservations.

Context {image : Type}.

(** The images of one PDF page, each with its page number and its
    position among the page's image regions (both from 1); a region whose
    crop failed gives no image but keeps its position. *)
Definition pdf_page_keyed (page_idx : nat) (page : pdf_page image)
  : list (image * (nat * nat)) :=
  omap (fun kr => (fun im => (im, (page_idx, fst kr))) <$> snd kr)
    (zip (seq 1 (length (page_regions page))) (page_regions page)).

(** The same for all pages, numbered from [page_idx]. *)
Fixpoint pdf_keyed (page_idx : nat) (pages : list (pdf_page image))
  : list (image * (nat * nat)) :=
  match pages with
  | [] => []
  | page :: rest => pdf_page_keyed page_idx page ++ pdf_keyed (S page_idx) rest
  end.

(** An entry of [pdf_keyed] with the name the converter gives it. *)
Definition pdf_named (e : image * (nat * nat)) : raw_image image :=
  (fst e, pdf_img_name (fst (snd e)) (snd (snd e))).

(** The bitmap of a shape, when it is a picture (type 13) that decodes. *)
Definition picture_of_shape (sh : shape image) : option image :=
  if bool_decide (shape_type sh = Ok (Some 13%Z)) then shape_image sh
  else None.

(** The bitmaps of the picture shapes of a slide that decode, in shape
    order. *)
Definition slide_pictures (sl : slide image) : list image :=
  omap picture_of_shape (shapes sl).

(** The pictures of all slides, each with the number of its slide, slides
    numbered from [slide_idx]. *)
Fixpoint deck_pictures (slide_idx : nat) (slides : list (slide image))
  : list (image * nat) :=
  match slides with
  | [] => []
  | sl :: rest =>
      map (fun im => (im, slide_idx)) (slide_pictures sl)
        ++ deck_pictures (S slide_idx) rest
  end.

End ConverterObservations.

(** ** Observations on the output tree *)

(** What a call does to one file of the output tree: [Put c] leaves it
    with content [c]; [Cut] is a save that failed after opening it. *)
Inductive file_op (image : Type) : Type :=
  | Put (c : file_content image)
  | Cut.
Arguments Put {image} c.
Arguments Cut {image}.

Definition apply_op {image : Type} (fs : gmap string (file_content image))
    (op : string * file_op image) : gmap string (file_content image) :=
  match snd op with
  | Put c => <[fst op := c]> fs
  | Cut => truncate_file (fst op) fs
  end.

(** The files after the operations [ops], made in order. *)
Definition apply_ops {image : Type} (ops : list (string * file_op image))
    (fs : gmap string (file_content image)) : gmap string (file_content image) :=
  foldl apply_op fs ops.

(** What an operation makes of the content [c] of its file, if any. *)
Definition op_on {image : Type} (op : file_op image)
    (c : option (file_content image)) : option (file_content image) :=
  match op with
  | Put c' => Some c'
  | Cut => match c with Some _ => Some Truncated | None => None end
  end.

(** What the operations [ops] make of the content of the file [p]. *)
Fixpoint ops_on {image : Type} (ops : list (string * file_op image))
    (p : string) (c : option (file_content image))
  : option (file_content image) :=
  match ops with
  | [] => c
  | op :: rest =>
      ops_on rest p (if String.eqb (fst op) p then op_on (snd op) c else c)
  end.

(** The output tree of [st] is one a file system can hold: no path is
    there both as a directory and as a file, and no file is there under
    two spellings, the paths compared as [os.path.normpath] spells them.
    The tree only grows during a run, so a file that stood in the way of
    an [os.makedirs], or a directory that stood in the place of a file to
    write, is still there when the run ends: a run that ends in such a
    state is one in which no call of [ensure_dir] or [open] raised, and in
    which the files read back are the files written. *)
Definition clash_free {image : Type} (st : state image) : Prop :=
  (∀ d p, d ∈ dirs st → is_Some (files st !! p) →
          PosixPath.normpath d ≠ PosixPath.normpath p)
  ∧ (∀ p q, is_Some (files st !! p) → is_Some (files st !! q) →
            PosixPath.normpath p = PosixPath.normpath q → p = q).

(** The same, computed. *)
Definition clash_freeb {image : Type} (st : state image) : bool :=
  let ds := map PosixPath.normpath (elements (dirs st)) in
  let ps := map fst (map_to_list (files st)) in
  forallb (fun p => negb (bool_decide (PosixPath.normpath p ∈ ds))) ps
  && forallb (fun p =>
       forallb (fun q =>
         bool_decide (PosixPath.normpath p = PosixPath.normpath q → p = q)) ps)
       ps.

(** [makedirs_raises], computed. *)
Definition makedirs_raisesb {image : Type} (st : state image) (path : string)
  : bool :=
  String.eqb path ""
  || existsb (fun d =>
       existsb (fun p =>
         String.eqb (PosixPath.normpath d) (PosixPath.normpath p))
         (map fst (map_to_list (files st))))
       (PosixPath.dir_chain path).

Section OutputObservations.

Context {image : Type}.
Variable w : world image.

(** The path [im.save] is called with for an extracted image. *)
Definition img_path_of (output_dir : string) (entry : raw_image image)
  : string :=
  PosixPath.join (PosixPath.join output_dir "images") (snd entry).

(** What the save of one extracted image does to the output tree. *)
Definition image_op (output_dir : string) (entry : raw_image image)
  : option (string * file_op image) :=
  let img_path := img_path_of output_dir entry in
  match image_save w (fst entry) img_path with
  | Ok _ => Some (img_path, Put (ImageFile (fst entry)))
  | Raise _ =>
      if save_truncates w (fst entry) img_path then Some (img_path, Cut)
      else None
  end.

(** What the save loop does to the output tree for [images], in order. *)
Definition image_ops (output_dir : string) (images : list (raw_image image))
  : list (string * file_op image) :=
  omap (image_op output_dir) images.

(** The directories the save loop ensures for [images]. *)
Definition images_dirs (output_dir : string)
    (images : list (raw_image image)) : gset string :=
  match images with
  | [] => ∅
  | _ :: _ =>
      list_to_set (PosixPath.dir_chain (PosixPath.join output_dir "images"))
  end.

End OutputObservations.

(** ** The pipeline as a list of file operations *)

Section PipelineObservations.

Context {image : Type}.
Variable w : world image.

(** A state with an empty output tree and no event. *)
Definition blank_state : state image :=
  {| dirs := ∅; files := ∅; trace := [] |}.

(** What [convert_file] returns for [input_path]. *)
Definition converted (input_path : string) : extraction image :=
  fst (convert_file w input_path blank_state).

(** The path of the Markdown file for [file] found in [root]. *)
Definition md_output_path_of (root file : string) : string :=
  PosixPath.join (output_dir_of w root)
    (fst (PosixPath.splitext file) +:+ ".md").

(** What the pipeline does to the output files for [file] found in
    [root], in order: the saves of the images, then the Markdown file. *)
Definition file_ops (root file : string) : list (string * file_op image) :=
  if bool_decide (file_ext file ∈ SUPPORTED_TYPES) then
    let output_dir := output_dir_of w root in
    let result := converted (PosixPath.join root file) in
    match fst result with
    | None => []
    | Some text =>
        let saves := image_ops w output_dir (snd result) in
        saves
          ++ [(md_output_path_of root file,
               Put (TextFile
                      (add_images_to_markdown w (apply_ops saves ∅) text
                         (omap (saved_path w output_dir) (snd result)))))]
    end
  else [].

(** The directories the pipeline ensures for [file] found in [root]. *)
Definition file_dirs (root file : string) : gset string :=
  if bool_decide (file_ext file ∈ SUPPORTED_TYPES) then
    let output_dir := output_dir_of w root in
    let result := converted (PosixPath.join root file) in
    list_to_set (PosixPath.dir_chain output_dir)
      ∪ match fst result with
        | None => ∅
        | Some _ => images_dirs output_dir (snd result)
        end
  else ∅.

(** The same for a whole directory of the walk, and for the whole run. *)
Definition dir_ops (entry : string * list string * list string)
  : list (string * file_op image) :=
  flat_map (file_ops (fst (fst entry))) (sorted (snd entry)).

Definition dir_dirs (entry : string * list string * list string)
  : gset string :=
  ⋃ (map (file_dirs (fst (fst entry))) (sorted (snd entry))).

Definition run_ops : list (string * file_op image) :=
  match raw_tree w with
  | None => []
  | Some t => flat_map dir_ops (walk RAW_DIR t)
  end.

Definition run_dirs : gset string :=
  match raw_tree w with
  | None => ∅
  | Some t => ⋃ (map dir_dirs (walk RAW_DIR t))
  end.

End PipelineObservations.

(** [s] is empty or begins with a character that is not whitespace. *)
Definition no_leading_space (s : string) : Prop :=
  match s with
  | EmptyString => True
  | String c _ => isspace c = false
  end.

(** ** A second sample: a deck with two pictures on one slide *)

Module Album.

Definition deck : list (slide nat) :=
  [ {| shapes :=
         [ {| shape_text := Ok (Some "Holiday"); shape_type := Ok (Some 14%Z);
              shape_image := None |};
           {| shape_text := Ok None; shape_type := Ok (Some 13%Z);
              shape_image := Some 4 |};
           {| shape_text := Ok None; shape_type := Ok (Some 13%Z);
              shape_image := Some 5 |} ] |} ].

Definition world : world nat :=
  {| pdfplumber_open := pdfplumber_open Sample.world;
     Document := Document Sample.world;
     Presentation := fun p =>
       if String.eqb p "data/album.pptx" then Ok deck
       else Raise "not a PowerPoint file";
     pypandoc_convert_file := pypandoc_convert_file Sample.world;
     image_to_string := image_to_string Sample.world;
     image_save := image_save Sample.world;
     save_truncates := save_truncates Sample.world;
     image_open_error := image_open_error Sample.world;
     relpath := relpath Sample.world;
     raw_tree := Some (Node [] ["album.pptx"]) |}.

End Album.

(** ** Runs in which no call raises *)




(** * Properties *)

(** ** Strings *)

Lemma rstrip_empty_iff (s : string) : rstrip s = "" ↔ all_space s = true.
Proof.
  induction s as [|c s IH]; simpl; [done|].
  destruct (rstrip s) eqn:Hr.
  - destruct (isspace c); simpl; [|split; intros; discriminate].
    split; intros _; [by apply IH | done].
  - split; [discriminate|].
    intros [_ Hs]%andb_prop. apply IH in Hs. discriminate.
Qed.

Lemma all_space_lstrip (s : string) : all_space (lstrip s) = all_space s.
Proof.
  induction s as [|c s IH]; simpl; [done|].
  destruct (isspace c) eqn:Hc; simpl; [done|]. by rewrite Hc.
Qed.

Lemma strip_empty_iff (s : string) : strip s = "" ↔ all_space s = true.
Proof. unfold strip. by rewrite rstrip_empty_iff, all_space_lstrip. Qed.

Lemma join_cons (sep p : string) (rest : list string) :
  rest ≠ [] → join sep (p :: rest) = p +:+ sep +:+ join sep rest.
Proof. by destruct rest. Qed.

(** ** Decimal numerals *)

Lemma read_uint_no_digit (s : string) :
  no_leading_digit s → read_uint s = (Nil, s).
Proof. destruct s as [|c s]; simpl; [done|]. by intros ->. Qed.

Lemma read_uint_print (u : uint) (rest : string) :
  no_leading_digit rest →
  read_uint (NilEmpty.string_of_uint u +:+ rest) = (u, rest).
Proof.
  intros Hrest.
  induction u as [|u IH|u IH|u IH|u IH|u IH|u IH|u IH|u IH|u IH|u IH];
    simpl; [by apply read_uint_no_digit|..]; by rewrite IH.
Qed.

Lemma to_uint_not_nil (n : nat) : Nat.to_uint n ≠ Nil.
Proof.
  intros Hn. pose proof (Unsigned.of_to n) as Hof. rewrite Hn in Hof.
  simpl in Hof. subst n. discriminate Hn.
Qed.

Lemma str_of_nat_inj (n m : nat) : str_of_nat n = str_of_nat m → n = m.
Proof.
  unfold str_of_nat. intros H. apply Unsigned.to_uint_inj.
  pose proof (NilEmpty.usu (Nat.to_uint n)) as Hn.
  pose proof (NilEmpty.usu (Nat.to_uint m)) as Hm.
  rewrite H in Hn. congruence.
Qed.

(** ** Image describer and Markdown assembler *)

Section Assembler.

Context {image : Type}.
Variable w : world image.

Implicit Types (fs : gmap string (file_content image)).
Implicit Types (md img_path : string) (image_paths lines : list string).

Lemma startswith_app (p s : string) : startswith p (p +:+ s) = true.
Proof. induction p as [|c p IH]; simpl; [done|]. by rewrite Ascii.eqb_refl. Qed.

Lemma slice_from_app (p s : string) :
  slice_from (String.length p) (p +:+ s) = s.
Proof. induction p as [|c p IH]; simpl; [by destruct s|done]. Qed.

Lemma strip_NO_TEXT : strip NO_TEXT = NO_TEXT.
Proof. reflexivity. Qed.

Lemma figure_number_figure_line (idx : nat) (rel_img_path : string) :
  figure_number (figure_line idx rel_img_path) = Some idx.
Proof.
  unfold figure_number, figure_line.
  rewrite startswith_app.
  change 9 with (String.length "![Figure "). rewrite slice_from_app.
  unfold str_of_nat. rewrite read_uint_print by done.
  rewrite startswith_app.
  destruct (Nat.to_uint idx) eqn:Hu;
    [by apply to_uint_not_nil in Hu|..];
    rewrite <- Hu; by rewrite Unsigned.of_to.
Qed.

Lemma figure_number_description_line (description : string) :
  figure_number (description_line description) = None.
Proof. reflexivity. Qed.

Lemma figure_number_images_heading : figure_number images_heading = None.
Proof. reflexivity. Qed.

Lemma add_images_loop_app fs idx image_paths lines :
  add_images_loop w fs idx image_paths lines
  = lines ++ add_images_loop w fs idx image_paths [].
Proof.
  revert idx lines.
  induction image_paths as [|p rest IH]; intros idx lines; simpl.
  - by rewrite app_nil_r.
  - rewrite (IH _ (_ ++ _)), (IH _ [_; _]). by rewrite <- !app_assoc.
Qed.

Lemma add_images_loop_cons fs idx img_path image_paths :
  add_images_loop w fs idx (img_path :: image_paths) []
  = figure_line idx (relpath w img_path OUTPUT_DIR)
      :: description_line (describe_image w fs img_path)
      :: add_images_loop w fs (S idx) image_paths [].
Proof. simpl. by rewrite add_images_loop_app. Qed.

Lemma add_images_loop_numbers fs idx image_paths :
  omap figure_number (add_images_loop w fs idx image_paths [])
  = seq idx (length image_paths).
Proof.
  revert idx. induction image_paths as [|p rest IH]; intros idx; [done|].
  rewrite add_images_loop_cons. cbn [omap list_omap].
  rewrite figure_number_figure_line, figure_number_description_line.
  simpl. by rewrite IH.
Qed.

Lemma add_images_loop_lookup fs idx image_paths (k : nat) img_path :
  image_paths !! k = Some img_path →
  add_images_loop w fs idx image_paths [] !! (2 * k)
    = Some (figure_line (idx + k) (relpath w img_path OUTPUT_DIR))
  ∧ add_images_loop w fs idx image_paths [] !! (2 * k + 1)
    = Some (description_line (describe_image w fs img_path)).
Proof.
  revert idx k.
  induction image_paths as [|p rest IH]; intros idx k Hk; [done|].
  rewrite add_images_loop_cons. destruct k as [|k]; simpl in Hk.
  - injection Hk as ->. by rewrite Nat.add_0_r.
  - replace (2 * S k) with (S (S (2 * k))) by lia.
    replace (idx + S k) with (S idx + k) by lia.
    simpl. by apply IH.
Qed.

Lemma StronglySorted_lt_seq (start len : nat) :
  StronglySorted lt (seq start len).
Proof.
  revert start. induction len as [|len IH]; intros start; simpl.
  - constructor.
  - constructor; [apply IH|].
    apply Forall_forall. intros x Hx%elem_of_seq. lia.
Qed.

Lemma save_images_loop_paths output_dir (images : list (raw_image image))
    (img_paths : list string) (st : state image) :
  fst (save_images_loop w output_dir images img_paths st)
  = img_paths ++ omap (saved_path w output_dir) images.
Proof.
  revert img_paths st.
  induction images as [|[im img_name] rest IH]; intros img_paths st.
  - simpl. by rewrite app_nil_r.
  - cbn [save_images_loop omap list_omap]. unfold bind, ensure_dir, im_save.
    unfold saved_path. cbn [fst snd].
    destruct (image_save w im _) as [[]|e]; simpl.
    + rewrite IH. by rewrite <- app_assoc.
    + apply IH.
Qed.

(** C3.  With an empty list of saved image paths the assembler returns the
    base text unchanged: no heading and nothing else is appended. *)
Theorem add_images_to_markdown_no_images fs md :
  add_images_to_markdown w fs md [] = md.
Proof. reflexivity. Qed.

(** C4.  The image describer always returns a string.  When the image cannot
    be opened or the OCR engine fails, the string is the failure message
    with the reason embedded; when OCR succeeds with empty or
    whitespace-only text, it is the fixed fallback text; otherwise it is
    the recognised text without its surrounding whitespace. *)
Theorem describe_image_always_returns fs img_path :
  (∀ e, Image_open w fs img_path = Raise e →
        describe_image w fs img_path = "Failed to describe image: " +:+ e)
  ∧ (∀ img e, Image_open w fs img_path = Ok img →
        image_to_string w img = Raise e →
        describe_image w fs img_path = "Failed to describe image: " +:+ e)
  ∧ (∀ img text, Image_open w fs img_path = Ok img →
        image_to_string w img = Ok text →
        all_space text = true →
        describe_image w fs img_path
        = "No readable text detected. Consider using a captioning model.")
  ∧ (∀ img text, Image_open w fs img_path = Ok img →
        image_to_string w img = Ok text →
        all_space text = false →
        describe_image w fs img_path = strip text
        ∧ strip text ≠ "").
Proof.
  unfold describe_image. split; [|split; [|split]].
  - by intros e ->.
  - by intros img e -> ->.
  - intros img text -> -> Hsp. apply strip_empty_iff in Hsp. by rewrite Hsp.
  - intros img text -> -> Hsp.
    assert (strip text ≠ "") as He.
    { intros He. apply strip_empty_iff in He. congruence. }
    split; [|done]. by destruct (String.eqb_spec (strip text) "").
Qed.

(** C1.  For a non-empty list of saved image paths, the assembled Markdown
    is the base text followed by the added lines; the figure numbers of the
    added lines are exactly 1, 2, ..., n for n saved paths (strictly
    increasing from 1, no gap, no repeat, as many as saved paths); the k-th
    saved path carries figure number k, followed by its description; and
    the saved paths the pipeline passes are those of the images whose save
    succeeded, in extraction order, so a failed save leaves no gap. *)
Theorem figure_numbers_sequential fs md image_paths :
  image_paths ≠ [] →
  let lines := markdown_lines w fs md image_paths in
  let numbers := figure_numbers lines in
  add_images_to_markdown w fs md image_paths
    = md +:+ nl +:+ join nl (drop 1 lines)
  ∧ numbers = seq 1 (length image_paths)
  ∧ length numbers = length image_paths
  ∧ head numbers = Some 1
  ∧ StronglySorted lt numbers
  ∧ NoDup numbers
  ∧ (∀ (k : nat) img_path, image_paths !! k = Some img_path →
       lines !! (2 + 2 * k)
         = Some ("![Figure " +:+ str_of_nat (S k) +:+ "]("
                 +:+ relpath w img_path OUTPUT_DIR +:+ ")")
       ∧ lines !! (3 + 2 * k)
         = Some ("**Description:** " +:+ describe_image w fs img_path
                 +:+ nl))
  ∧ (∀ output_dir (images : list (raw_image image)) (st : state image),
       let img_paths := fst (save_images_loop w output_dir images [] st) in
       img_paths = omap (saved_path w output_dir) images
       ∧ figure_numbers (markdown_lines w fs md img_paths)
         = seq 1 (length (omap (saved_path w output_dir) images))).
Proof.
  intros Hne lines numbers.
  assert (∀ paths, figure_numbers (markdown_lines w fs md paths)
                   = seq 1 (length paths)) as Hnum.
  { intros paths. unfold figure_numbers, markdown_lines.
    rewrite add_images_loop_app. cbn [app drop omap list_omap].
    rewrite figure_number_images_heading. apply add_images_loop_numbers. }
  assert (numbers = seq 1 (length image_paths)) as Hnumbers by apply Hnum.
  split; [|split; [done|]]; [|rewrite Hnumbers; split; [|split; [|split;
    [|split; [|split; [intros k img_path Hk; split|intros output_dir images
    st img_paths; split]]]]]].
  - destruct image_paths as [|p rest]; [done|].
    unfold add_images_to_markdown. subst lines. unfold markdown_lines.
    rewrite add_images_loop_app. cbn [app drop]. by rewrite join_cons.
  - by rewrite length_seq.
  - by destruct image_paths.
  - apply StronglySorted_lt_seq.
  - apply NoDup_seq.
  - subst lines. unfold markdown_lines. rewrite add_images_loop_app.
    replace (2 + 2 * k) with (length [md; images_heading] + 2 * k) by done.
    rewrite lookup_app_r by (simpl; lia).
    replace (length [md; images_heading] + 2 * k - length [md; images_heading])
      with (2 * k) by (simpl; lia).
    by apply add_images_loop_lookup.
  - subst lines. unfold markdown_lines. rewrite add_images_loop_app.
    rewrite lookup_app_r by (simpl; lia).
    replace (3 + 2 * k - length [md; images_heading])
      with (2 * k + 1) by (simpl; lia).
    by apply add_images_loop_lookup.
  - subst img_paths. by rewrite save_images_loop_paths.
  - subst img_paths. rewrite Hnum. by rewrite save_images_loop_paths.
Qed.

End Assembler.

(** ** Converters *)

Section Converters.

Context {image : Type}.
Variable w : world image.

Implicit Types (input_path : string) (st : state image).

Lemma docx_rels_loop_app (idx : nat) (rs : list (relationship image))
    (images : list (raw_image image)) :
  docx_rels_loop idx rs images = images ++ docx_rels_loop idx rs [].
Proof.
  revert idx images. induction rs as [|rel rest IH]; intros idx images; simpl.
  - by rewrite app_nil_r.
  - destruct (contains "image" (target_ref rel)); [|apply IH].
    destruct (rel_image rel) as [im|]; [|apply IH].
    rewrite (IH _ (_ ++ _)), (IH _ [_]). by rewrite <- app_assoc.
Qed.

Lemma docx_rels_loop_cons (idx : nat) (rel : relationship image)
    (rs : list (relationship image)) :
  docx_rels_loop idx (rel :: rs) []
  = option_list (docx_image_at idx rel) ++ docx_rels_loop (S idx) rs [].
Proof.
  simpl. unfold docx_image_at, docx_img_name.
  destruct (contains "image" (target_ref rel)); [|done].
  destruct (rel_image rel) as [im|]; [|done].
  simpl. by rewrite docx_rels_loop_app.
Qed.

Lemma docx_rels_loop_lookup (idx : nat) (rs : list (relationship image))
    (k : nat) (rel : relationship image) (entry : raw_image image) :
  rs !! k = Some rel →
  docx_image_at (idx + k) rel = Some entry →
  entry ∈ docx_rels_loop idx rs [].
Proof.
  revert idx k. induction rs as [|r rest IH]; intros idx k Hk Hat; [done|].
  rewrite docx_rels_loop_cons. apply elem_of_app.
  destruct k as [|k]; simpl in Hk.
  - injection Hk as ->. rewrite Nat.add_0_r in Hat. rewrite Hat.
    left. simpl. apply list_elem_of_here.
  - right. apply (IH (S idx) k); [done|].
    by replace (S idx + k) with (idx + S k) by lia.
Qed.

Lemma docx_rels_loop_elem (idx : nat) (rs : list (relationship image))
    (entry : raw_image image) :
  entry ∈ docx_rels_loop idx rs [] →
  ∃ (k : nat) rel, rs !! k = Some rel
                   ∧ docx_image_at (idx + k) rel = Some entry.
Proof.
  revert idx. induction rs as [|r rest IH]; intros idx.
  - simpl. by intros ?%elem_of_nil.
  - rewrite docx_rels_loop_cons. intros [Hh|Ht]%elem_of_app.
    + exists 0, r. rewrite Nat.add_0_r.
      destruct (docx_image_at idx r) as [e|]; simpl in Hh.
      * apply list_elem_of_singleton in Hh. by subst.
      * by apply elem_of_nil in Hh.
    + destruct (IH _ Ht) as (k & rel & Hk & Hat).
      exists (S k), rel. split; [done|].
      by replace (idx + S k) with (S idx + k) by lia.
Qed.

Lemma bool_decide_Ok {A} `{EqDecision A} (a b : A) :
  bool_decide (@Ok A a = Ok b) = bool_decide (a = b).
Proof. apply bool_decide_ext. split; [by intros [= ->]|by intros ->]. Qed.

Lemma shapes_read_clean (shs : list (shape image)) :
  shapes_failure shs = None → shapes_read shs = shs.
Proof.
  induction shs as [|sh rest IH]; [done|]. simpl.
  destruct (shape_text sh) as [t|e]; [|done].
  destruct (shape_type sh) as [ty|e]; [|done].
  intros Hrest. by rewrite IH.
Qed.

Lemma shapes_read_cut (good : list (shape image)) (bad : shape image)
    (rest : list (shape image)) :
  shapes_failure good = None →
  shapes_read (good ++ bad :: rest) = good ++ shapes_read (bad :: rest)
  ∧ shapes_failure (good ++ bad :: rest) = shapes_failure (bad :: rest).
Proof.
  induction good as [|sh good IH]; [done|]. cbn [app shapes_read shapes_failure].
  destruct (shape_text sh) as [t|e]; [|done].
  destruct (shape_type sh) as [ty|e]; [|done].
  intros Hgood. destruct (IH Hgood) as [-> ->]. done.
Qed.

Lemma slides_read_clean (slides : list (slide image)) :
  deck_failure slides = None → slides_read slides = slides.
Proof.
  induction slides as [|sl rest IH]; [done|]. simpl.
  destruct (shapes_failure (shapes sl)); [done|].
  intros Hrest. by rewrite IH.
Qed.

Lemma slides_read_cut (good : list (slide image)) (bad : slide image)
    (rest : list (slide image)) (e : exn) :
  deck_failure good = None → shapes_failure (shapes bad) = Some e →
  slides_read (good ++ bad :: rest)
    = good ++ [ {| shapes := shapes_read (shapes bad) |} ]
  ∧ deck_failure (good ++ bad :: rest) = Some e.
Proof.
  intros Hgood Hbad. induction good as [|sl good IH].
  - simpl. by rewrite Hbad.
  - cbn [app slides_read deck_failure] in *.
    destruct (shapes_failure (shapes sl)); [done|].
    destruct (IH Hgood) as [-> ->]. done.
Qed.

Lemma pages_read_clean (pages : list (pdf_page image)) :
  pdf_failure pages = None → pages_read pages = pages.
Proof.
  induction pages as [|page rest IH]; [done|]. simpl.
  destruct (extract_text page) as [t|e]; [|done].
  destruct (page_images page) as [imgs|e]; [|done].
  intros Hrest. by rewrite IH.
Qed.

Lemma pages_read_cut (good : list (pdf_page image)) (bad : pdf_page image)
    (rest : list (pdf_page image)) :
  pdf_failure good = None →
  pages_read (good ++ bad :: rest) = good ++ pages_read (bad :: rest)
  ∧ pdf_failure (good ++ bad :: rest) = pdf_failure (bad :: rest).
Proof.
  induction good as [|page good IH]; [done|].
  cbn [app pages_read pdf_failure].
  destruct (extract_text page) as [t|e]; [|done].
  destruct (page_images page) as [imgs|e]; [|done].
  intros Hgood. destruct (IH Hgood) as [-> ->]. done.
Qed.

(** The shape loop gathers the texts and pictures of the shapes read. *)
Lemma pptx_shapes_loop_read (slide_idx : nat) (shs : list (shape image))
    (text_parts : list string) (images : list (raw_image image)) :
  pptx_shapes_loop slide_idx shs text_parts images
  = (text_parts ++ omap text_of_shape (shapes_read shs),
     images ++ map (fun im => (im, pptx_img_name slide_idx))
                 (omap picture_of_shape (shapes_read shs)),
     shapes_failure shs).
Proof.
  revert text_parts images.
  induction shs as [|sh rest IH]; intros text_parts images.
  - simpl. by rewrite !app_nil_r.
  - cbn [pptx_shapes_loop shapes_read shapes_failure].
    destruct (shape_text sh) as [t|e] eqn:Htext;
      [|simpl; by rewrite !app_nil_r].
    destruct (shape_type sh) as [ty|e] eqn:Hty.
    + cbn [omap list_omap]. unfold text_of_shape at 1.
      unfold picture_of_shape at 1. rewrite Htext, Hty, bool_decide_Ok.
      destruct t as [t|]; destruct (bool_decide (ty = Some 13%Z));
        try destruct (shape_image sh) as [im|];
        rewrite IH; cbn [map app]; by rewrite <- ?app_assoc.
    + cbn [omap list_omap]. unfold text_of_shape, picture_of_shape.
      cbn [shape_text shape_type shape_image].
      rewrite bool_decide_eq_false_2 by done.
      destruct t as [t|]; simpl; by rewrite ?app_nil_r.
Qed.

(** The slide loop gathers the parts and pictures of the slides read. *)
Lemma pptx_slides_loop_read (slide_idx : nat) (slides : list (slide image))
    (text_parts : list string) (images : list (raw_image image)) :
  pptx_slides_loop slide_idx slides text_parts images
  = (text_parts ++ concat (deck_parts slide_idx (slides_read slides)),
     images ++ map (fun e => (fst e, pptx_img_name (snd e)))
                 (deck_pictures slide_idx (slides_read slides)),
     deck_failure slides).
Proof.
  revert slide_idx text_parts images.
  induction slides as [|sl rest IH]; intros slide_idx text_parts images.
  - simpl. by rewrite !app_nil_r.
  - cbn [pptx_slides_loop slides_read deck_failure].
    rewrite pptx_shapes_loop_read.
    destruct (shapes_failure (shapes sl)) as [e|] eqn:Hfail.
    + cbn [deck_parts deck_pictures concat shapes map].
      unfold slide_parts, slide_pictures, slide_heading. cbn [shapes].
      rewrite !app_nil_r, map_map. cbn [fst snd].
      by rewrite <- !app_assoc.
    + rewrite IH. cbn [deck_parts deck_pictures concat].
      unfold slide_parts, slide_pictures, slide_heading.
      rewrite (shapes_read_clean _ Hfail), map_app, map_map. cbn [fst snd].
      by rewrite <- !app_assoc.
Qed.

Lemma docx_rels_loop_zip (idx : nat) (rs : list (relationship image)) :
  docx_rels_loop idx rs []
  = omap (fun kr => docx_image_at (fst kr) (snd kr))
      (zip (seq idx (length rs)) rs).
Proof.
  revert idx. induction rs as [|r rest IH]; intros idx; [done|].
  rewrite docx_rels_loop_cons, IH. cbn [length seq zip zip_with omap list_omap fst snd].
  by destruct (docx_image_at idx r).
Qed.

Lemma deck_parts_lookup (slide_idx : nat) (slides : list (slide image))
    (k : nat) (sl : slide image) :
  slides !! k = Some sl →
  deck_parts slide_idx slides !! k = Some (slide_parts (slide_idx + k) sl).
Proof.
  revert slide_idx k.
  induction slides as [|s rest IH]; intros slide_idx k Hk; [done|].
  destruct k as [|k]; simpl in *.
  - injection Hk as ->. by rewrite Nat.add_0_r.
  - replace (slide_idx + S k) with (S slide_idx + k) by lia. by apply IH.
Qed.

Lemma deck_parts_length (slide_idx : nat) (slides : list (slide image)) :
  length (deck_parts slide_idx slides) = length slides.
Proof.
  revert slide_idx. induction slides as [|s rest IH]; intros slide_idx;
    simpl; [done|]. by rewrite IH.
Qed.

Lemma pdf_images_loop_keyed (page_idx img_idx : nat)
    (imgs : list (option image)) (images : list (raw_image image)) :
  pdf_images_loop page_idx img_idx imgs images
  = images
    ++ map pdf_named
         (omap (fun kr => (fun im => (im, (page_idx, fst kr))) <$> snd kr)
            (zip (seq img_idx (length imgs)) imgs)).
Proof.
  revert img_idx images.
  induction imgs as [|[im|] rest IH]; intros img_idx images.
  - simpl. by rewrite app_nil_r.
  - cbn [pdf_images_loop length seq zip zip_with omap list_omap].
    rewrite IH. cbn [fst snd fmap option_fmap option_map map].
    by rewrite <- app_assoc.
  - cbn [pdf_images_loop length seq zip zip_with omap list_omap].
    by rewrite IH.
Qed.

(** The page loop gathers the texts and images of the pages read. *)
Lemma pdf_pages_loop_read (page_idx : nat) (pages : list (pdf_page image))
    (text_parts : list string) (images : list (raw_image image)) :
  pdf_pages_loop page_idx pages text_parts images
  = (text_parts ++ map page_text (pages_read pages),
     images ++ map pdf_named (pdf_keyed page_idx (pages_read pages)),
     pdf_failure pages).
Proof.
  revert page_idx text_parts images.
  induction pages as [|page rest IH]; intros page_idx text_parts images.
  - simpl. by rewrite !app_nil_r.
  - cbn [pdf_pages_loop pages_read pdf_failure].
    destruct (extract_text page) as [t|e] eqn:Htext;
      [|simpl; by rewrite !app_nil_r].
    destruct (page_images page) as [imgs|e] eqn:Himgs.
    + rewrite IH, pdf_images_loop_keyed. cbn [pdf_keyed map].
      unfold pdf_page_keyed, page_regions, page_text.
      rewrite Htext, Himgs. by rewrite map_app, <- !app_assoc.
    + simpl. unfold page_text. simpl. by rewrite !app_nil_r.
Qed.

Lemma convert_pdf_read input_path (pages : list (pdf_page image)) st :
  pdfplumber_open w input_path = Ok pages →
  convert_pdf w input_path st
  = ((Some (join (nl +:+ nl) (map page_text (pages_read pages))),
      map pdf_named (pdf_keyed 1 (pages_read pages))),
     logged (option_list (EvPrint ∘ MsgPdfFailed input_path
                            <$> pdf_failure pages)) st).
Proof.
  intros Hopen. unfold convert_pdf. rewrite Hopen, pdf_pages_loop_read.
  destruct (pdf_failure pages) as [e|]; [done|].
  unfold logged. simpl. rewrite app_nil_r. by destruct st.
Qed.

Lemma convert_pptx_read input_path (slides : list (slide image)) st :
  Presentation w input_path = Ok slides →
  convert_pptx w input_path st
  = ((Some (join (nl +:+ nl) (concat (deck_parts 1 (slides_read slides)))),
      map (fun e => (fst e, pptx_img_name (snd e)))
        (deck_pictures 1 (slides_read slides))),
     logged (option_list (EvPrint ∘ MsgPptxFailed input_path
                            <$> deck_failure slides)) st).
Proof.
  intros Hopen. unfold convert_pptx. rewrite Hopen, pptx_slides_loop_read.
  destruct (deck_failure slides) as [e|]; [done|].
  unfold logged. simpl. rewrite app_nil_r. by destruct st.
Qed.

(** C2, as amended.  When the document cannot be opened, the PDF, DOCX and
    PPTX converters log the failure and return the empty text with no
    images.  When a PDF or a PPTX opens and the reader fails on one of its
    pages or shapes, the converter logs the failure and returns the text
    parts and the images gathered before the failure, which need not be
    empty.  When the conversion tool fails, the generic converter logs the
    failure and returns an absent text with no images.  The three document
    converters never return an absent text, and the generic converter does
    so exactly when the tool fails. *)
Theorem converters_on_document_failure input_path st :
  (∀ e, pdfplumber_open w input_path = Raise e →
        convert_pdf w input_path st
        = ((Some "", []), logged [EvPrint (MsgPdfFailed input_path e)] st))
  ∧ (∀ e, Document w input_path = Raise e →
        convert_docx w input_path st
        = ((Some "", []), logged [EvPrint (MsgDocxFailed input_path e)] st))
  ∧ (∀ e, Presentation w input_path = Raise e →
        convert_pptx w input_path st
        = ((Some "", []), logged [EvPrint (MsgPptxFailed input_path e)] st))
  ∧ (∀ e, pypandoc_convert_file w input_path = Raise e →
        convert_generic w input_path st
        = ((None, []), logged [EvPrint (MsgPandocFailed input_path e)] st))
  ∧ (∀ pages e, pdfplumber_open w input_path = Ok pages →
        pdf_failure pages = Some e →
        convert_pdf w input_path st
        = ((Some (join (nl +:+ nl) (map page_text (pages_read pages))),
            map pdf_named (pdf_keyed 1 (pages_read pages))),
           logged [EvPrint (MsgPdfFailed input_path e)] st))
  ∧ (∀ slides e, Presentation w input_path = Ok slides →
        deck_failure slides = Some e →
        convert_pptx w input_path st
        = ((Some (join (nl +:+ nl)
                    (concat (deck_parts 1 (slides_read slides)))),
            map (fun e => (fst e, pptx_img_name (snd e)))
              (deck_pictures 1 (slides_read slides))),
           logged [EvPrint (MsgPptxFailed input_path e)] st))
  ∧ is_Some (fst (fst (convert_pdf w input_path st)))
  ∧ is_Some (fst (fst (convert_docx w input_path st)))
  ∧ is_Some (fst (fst (convert_pptx w input_path st)))
  ∧ (fst (fst (convert_generic w input_path st)) = None
     ↔ ∃ e, pypandoc_convert_file w input_path = Raise e).
Proof.
  split; [|split; [|split; [|split; [|split; [|split; [|split; [|split;
    [|split]]]]]]]].
  - intros e He. unfold convert_pdf. by rewrite He.
  - intros e He. unfold convert_docx. by rewrite He.
  - intros e He. unfold convert_pptx. by rewrite He.
  - intros e He. unfold convert_generic. by rewrite He.
  - intros pages e Hopen Hfail.
    by rewrite (convert_pdf_read _ pages st Hopen), Hfail.
  - intros slides e Hopen Hfail.
    by rewrite (convert_pptx_read _ slides st Hopen), Hfail.
  - destruct (pdfplumber_open w input_path) as [pages|e] eqn:Hopen.
    + rewrite (convert_pdf_read _ pages st Hopen). by eexists.
    + unfold convert_pdf. rewrite Hopen. by eexists.
  - unfold convert_docx. destruct (Document w input_path) as [doc|e];
      by eexists.
  - destruct (Presentation w input_path) as [slides|e] eqn:Hopen.
    + rewrite (convert_pptx_read _ slides st Hopen). by eexists.
    + unfold convert_pptx. rewrite Hopen. by eexists.
  - unfold convert_generic.
    destruct (pypandoc_convert_file w input_path) as [text|e]; simpl.
    + split; [done|]. by intros [e He].
    + split; [|done]. intros _. by exists e.
Qed.

(** C5, as amended.  For a PPTX document that opens, the extracted text is
    the join, with a blank-line separator, of one flat list of parts: for
    each slide read, in slide order, its heading [# Slide i] (i counted
    from 1) followed by the text of each text-bearing shape read, in shape
    order.  The heading and every shape text are thus all separated by
    blank lines.  The slides and shapes read are all those of the deck
    when the reader raises on none of them; otherwise they end with the
    shape on whose text or type the reader raises, of which the text is
    kept when it is the type that raises. *)
Theorem pptx_text_blank_line_joined input_path (slides : list (slide image))
    st :
  Presentation w input_path = Ok slides →
  fst (fst (convert_pptx w input_path st))
    = Some (join (nl +:+ nl) (concat (deck_parts 1 (slides_read slides))))
  ∧ length (deck_parts 1 (slides_read slides)) = length (slides_read slides)
  ∧ (∀ (k : nat) sl, slides_read slides !! k = Some sl →
       deck_parts 1 (slides_read slides) !! k
       = Some (("# Slide " +:+ str_of_nat (S k))
                 :: omap text_of_shape (shapes sl)))
  ∧ (deck_failure slides = None → slides_read slides = slides)
  ∧ (∀ good bad rest e,
       slides = good ++ bad :: rest →
       deck_failure good = None → shapes_failure (shapes bad) = Some e →
       slides_read slides
       = good ++ [ {| shapes := shapes_read (shapes bad) |} ])
  ∧ (∀ (shs good : list (shape image)) bad rest,
       shs = good ++ bad :: rest → shapes_failure good = None →
       (∀ e, shape_text bad = Raise e → shapes_read shs = good)
       ∧ (∀ t e, shape_text bad = Ok t → shape_type bad = Raise e →
            shapes_read shs
            = good ++ [ {| shape_text := Ok t; shape_type := Ok None;
                           shape_image := None |} ])).
Proof.
  intros Hopen. split; [|split; [|split; [|split; [|split]]]].
  - by rewrite (convert_pptx_read _ slides st Hopen).
  - apply deck_parts_length.
  - intros k sl Hk. by rewrite (deck_parts_lookup 1 _ k sl).
  - apply slides_read_clean.
  - intros good bad rest e -> Hgood Hbad.
    by destruct (slides_read_cut good bad rest e Hgood Hbad).
  - intros shs good bad rest -> Hgood.
    destruct (shapes_read_cut good bad rest Hgood) as [-> _]. split.
    + intros e He. simpl. rewrite He. by rewrite app_nil_r.
    + intros t e Ht He. simpl. by rewrite Ht, He.
Qed.

(** C8.  For a DOCX document that opens, the images are those of the
    relationships whose target reference contains [image] and whose payload
    decodes, in relationship order; the image of the relationship at
    position k (from 0) is named [img_{k+1}.png], the counter advancing on
    every relationship, so that names skip the numbers of the
    relationships that gave no image. *)
Theorem docx_image_names input_path (doc : docx_document image) st :
  Document w input_path = Ok doc →
  let images := snd (fst (convert_docx w input_path st)) in
  images = omap (fun kr => docx_image_at (fst kr) (snd kr))
             (zip (seq 1 (length (rels doc))) (rels doc))
  ∧ (∀ im name, (im, name) ∈ images ↔
       ∃ (k : nat) rel,
         rels doc !! k = Some rel
         ∧ contains "image" (target_ref rel) = true
         ∧ rel_image rel = Some im
         ∧ name = "img_" +:+ str_of_nat (S k) +:+ ".png")
  ∧ (∀ im : image,
       docx_rels_loop 1
         [ {| target_ref := "styles.xml"; rel_image := None |};
           {| target_ref := "media/image1.png"; rel_image := Some im |} ] []
       = [(im, "img_2.png")]).
Proof.
  intros Hopen images.
  assert (images = docx_rels_loop 1 (rels doc) []) as ->.
  { subst images. unfold convert_docx. by rewrite Hopen. }
  split; [apply docx_rels_loop_zip|split; [|done]].
  intros im name. split.
  - intros (k & rel & Hk & Hat)%docx_rels_loop_elem.
    exists k, rel. split; [done|]. unfold docx_image_at in Hat.
    destruct (contains "image" (target_ref rel)); [|done].
    destruct (rel_image rel) as [im'|]; [|done].
    simpl in Hat. by injection Hat as -> <-.
  - intros (k & rel & Hk & Hc & Him & ->).
    apply (docx_rels_loop_lookup 1 (rels doc) k rel); [done|].
    unfold docx_image_at. by rewrite Hc, Him.
Qed.

(** C10.  For a path whose lower-cased extension is outside the supported
    set, [convert_file] returns an absent text with an empty image list,
    and has no effect. *)
Theorem convert_file_unsupported input_path st :
  lower (snd (PosixPath.splitext input_path)) ∉ SUPPORTED_TYPES →
  convert_file w input_path st = ((None, []), st).
Proof.
  intros Hext. unfold convert_file.
  set (ext := lower (snd (PosixPath.splitext input_path))) in *.
  unfold SUPPORTED_TYPES in Hext.
  unfold GENERIC_TYPES.
  rewrite !elem_of_union, !elem_of_singleton in Hext.
  destruct (String.eqb_spec ext ".pdf") as [->|_]; [tauto|].
  destruct (String.eqb_spec ext ".docx") as [->|_]; [tauto|].
  destruct (String.eqb_spec ext ".pptx") as [->|_]; [tauto|].
  rewrite bool_decide_eq_false_2; [done|].
  rewrite !elem_of_union, !elem_of_singleton. tauto.
Qed.

End Converters.

(** ** Pipeline *)

Section Pipeline.

Context {image : Type}.
Variable w : world image.

Implicit Types (st : state image) (root file input_path : string).

Lemma logged_nil st : logged [] st = st.
Proof. destruct st. unfold logged. simpl. by rewrite app_nil_r. Qed.

Lemma dispatched_app (tr1 tr2 : list event) :
  dispatched (tr1 ++ tr2) = dispatched tr1 ++ dispatched tr2.
Proof. apply omap_app. Qed.

Lemma made_dirs_app (tr1 tr2 : list event) :
  made_dirs (tr1 ++ tr2) = made_dirs tr1 ++ made_dirs tr2.
Proof. apply omap_app. Qed.



(** The converters only print, and what they return does not depend on the
    state. *)
Lemma convert_pdf_effect input_path st :
  (∃ msgs, snd (convert_pdf w input_path st) = logged (map EvPrint msgs) st)
  ∧ ∀ st', fst (convert_pdf w input_path st)
           = fst (convert_pdf w input_path st').
Proof.
  destruct (pdfplumber_open w input_path) as [pages|e] eqn:Hopen.
  - split; [|intros st'; by rewrite !(convert_pdf_read w _ pages _ Hopen)].
    rewrite (convert_pdf_read w _ pages st Hopen).
    destruct (pdf_failure pages) as [e|]; [by eexists [_]|by exists []].
  - unfold convert_pdf. rewrite Hopen. split; [by eexists [_]|done].
Qed.

Lemma convert_pptx_effect input_path st :
  (∃ msgs, snd (convert_pptx w input_path st) = logged (map EvPrint msgs) st)
  ∧ ∀ st', fst (convert_pptx w input_path st)
           = fst (convert_pptx w input_path st').
Proof.
  destruct (Presentation w input_path) as [slides|e] eqn:Hopen.
  - split; [|intros st'; by rewrite !(convert_pptx_read w _ slides _ Hopen)].
    rewrite (convert_pptx_read w _ slides st Hopen).
    destruct (deck_failure slides) as [e|]; [by eexists [_]|by exists []].
  - unfold convert_pptx. rewrite Hopen. split; [by eexists [_]|done].
Qed.

Lemma convert_file_effect input_path st :
  ∃ msgs, snd (convert_file w input_path st) = logged (map EvPrint msgs) st.
Proof.
  unfold convert_file.
  destruct (String.eqb _ ".pdf"); [apply convert_pdf_effect|].
  destruct (String.eqb _ ".docx").
  { unfold convert_docx. destruct (Document w input_path);
      [exists []; simpl; by rewrite logged_nil|by eexists [_]]. }
  destruct (String.eqb _ ".pptx"); [apply convert_pptx_effect|].
  destruct (bool_decide _); [|exists []; simpl; by rewrite logged_nil].
  unfold convert_generic. destruct (pypandoc_convert_file w input_path);
    [exists []; simpl; by rewrite logged_nil|by eexists [_]].
Qed.

Lemma convert_file_result input_path st st' :
  fst (convert_file w input_path st) = fst (convert_file w input_path st').
Proof.
  unfold convert_file.
  destruct (String.eqb _ ".pdf"); [apply convert_pdf_effect|].
  destruct (String.eqb _ ".docx").
  { unfold convert_docx. by destruct (Document w input_path). }
  destruct (String.eqb _ ".pptx"); [apply convert_pptx_effect|].
  destruct (bool_decide _); [|done].
  unfold convert_generic. by destruct (pypandoc_convert_file w input_path).
Qed.

End Pipeline.

Section Orchestrator.

Context {image : Type}.
Variable w : world image.

Implicit Types (st : state image) (root file input_path : string).

Lemma append_empty_r (s : string) : s +:+ "" = s.
Proof.
  induction s as [|c s IH]; [done|]. exact (f_equal (String c) IH).
Qed.

Lemma append_assoc (a b c : string) : (a +:+ b) +:+ c = a +:+ (b +:+ c).
Proof.
  induction a as [|x a IH]; [done|]. exact (f_equal (String x) IH).
Qed.

Lemma append_not_empty (a b : string) : a ≠ "" → a +:+ b ≠ "".
Proof. by destruct a. Qed.

Lemma join_not_empty (a b : string) : a ≠ "" → PosixPath.join a b ≠ "".
Proof.
  intros Ha. unfold PosixPath.join.
  destruct (startswith "/" b) eqn:Hb; [by destruct b|].
  destruct (_ || _); by apply append_not_empty.
Qed.

Lemma dir_chain_from_last (pre p : string) :
  pre +:+ p ∈ PosixPath.dir_chain_from pre p.
Proof.
  revert pre. induction p as [|c p IH]; intros pre; simpl.
  - rewrite append_empty_r. apply list_elem_of_here.
  - apply elem_of_app. right.
    replace (pre +:+ String c p) with ((pre +:+ String c "") +:+ p)
      by (by rewrite append_assoc).
    apply IH.
Qed.

Lemma dir_chain_self (p : string) : p ≠ "" → p ∈ PosixPath.dir_chain p.
Proof.
  intros Hp. unfold PosixPath.dir_chain. apply list_elem_of_filter.
  split; [done|]. apply (dir_chain_from_last "" p).
Qed.

Lemma output_dir_of_not_empty root : output_dir_of w root ≠ "".
Proof. by apply join_not_empty. Qed.

(** The save loop ensures the [images] folder once per extracted image and
    dispatches nothing. *)
Lemma save_images_loop_effect (output_dir : string)
    (images : list (raw_image image)) (img_paths : list string) st :
  ∃ evs,
    trace (snd (save_images_loop w output_dir images img_paths st))
      = trace st ++ evs
    ∧ made_dirs evs
      = replicate (length images) (PosixPath.join output_dir "images")
    ∧ dispatched evs = []
    ∧ dirs st ⊆ dirs (snd (save_images_loop w output_dir images img_paths st)).
Proof.
  revert img_paths st.
  induction images as [|[im img_name] rest IH]; intros img_paths st.
  - exists []. simpl. by rewrite app_nil_r.
  - cbn [save_images_loop]. unfold bind, ensure_dir, im_save, print, emit.
    destruct (image_save w im _) as [[]|e].
    + match goal with
      | |- context [save_images_loop w output_dir rest ?ps ?s] =>
          destruct (IH ps s) as (evs & Htr & Hmk & Hd & Hdirs)
      end.
      exists ([EvMakedirs (PosixPath.join output_dir "images");
               EvSave (PosixPath.join (PosixPath.join output_dir "images")
                         img_name)] ++ evs).
      rewrite Htr. split; [simpl; by rewrite <- !app_assoc|].
      split; [by rewrite made_dirs_app, Hmk|].
      split; [by rewrite dispatched_app, Hd|].
      etrans; [|exact Hdirs]. simpl. set_solver.
    + destruct (save_truncates w im _);
        match goal with
        | |- context [save_images_loop w output_dir rest ?ps ?s] =>
            destruct (IH ps s) as (evs & Htr & Hmk & Hd & Hdirs)
        end;
        (exists ([EvMakedirs (PosixPath.join output_dir "images");
                  EvPrint (MsgSaveFailed img_name e)] ++ evs));
        rewrite Htr;
        (split; [simpl; by rewrite <- !app_assoc|]);
        (split; [by rewrite made_dirs_app, Hmk|]);
        (split; [by rewrite dispatched_app, Hd|]);
        (etrans; [|exact Hdirs]); simpl; set_solver.
Qed.

Lemma process_file_unsupported root file st :
  file_ext file ∉ SUPPORTED_TYPES → process_file w root file st = (tt, st).
Proof.
  intros Hext. unfold process_file. by rewrite bool_decide_eq_false_2.
Qed.

(** What processing one supported file does, in order: the output folder is
    ensured, the file is announced and converted; then either it is
    skipped, or its images are saved and the Markdown is written. *)
Lemma process_file_supported root file st :
  file_ext file ∈ SUPPORTED_TYPES →
  let input_path := PosixPath.join root file in
  let output_dir := output_dir_of w root in
  let converted := fst (convert_file w input_path st) in
  let st' := snd (process_file w root file st) in
  ∃ msgs evs,
    trace st'
      = trace st
        ++ [EvMakedirs output_dir; EvPrint (MsgProcessing input_path);
            EvConvert input_path]
        ++ map EvPrint msgs ++ evs
    ∧ dirs st ∪ list_to_set (PosixPath.dir_chain output_dir) ⊆ dirs st'
    ∧ match fst converted with
      | None =>
          evs = [EvPrint (MsgSkipped input_path)]
          ∧ files st' = files st
          ∧ dirs st' = dirs st ∪ list_to_set (PosixPath.dir_chain output_dir)
      | Some _ =>
          ∃ saves md_output_path,
            evs = saves ++ [EvWrite md_output_path]
            ∧ made_dirs saves
              = replicate (length (snd converted))
                  (PosixPath.join output_dir "images")
            ∧ dispatched saves = []
      end.
Proof.
  intros Hext input_path output_dir converted st'.
  subst st'. unfold process_file. rewrite bool_decide_eq_true_2 by done.
  cbn [negb]. fold input_path output_dir.
  unfold bind, ensure_dir, print, emit, dispatch, bind, emit. cbn [fst snd].
  match goal with
  | |- context [convert_file w input_path ?s] =>
      set (st1 := s);
      destruct (convert_file_effect w input_path st1) as [msgs Hst];
      pose proof (convert_file_result w input_path st1 st) as Hres
  end.
  fold converted in Hres.
  destruct (convert_file w input_path st1) as [conv st2].
  cbn [fst snd] in *. subst conv st2. exists msgs.
  destruct (fst converted) as [text|].
  - unfold read_files, write_text.
    destruct (save_images_loop_effect output_dir (snd converted) []
                (logged (map EvPrint msgs) st1))
      as (saves & Htr & Hmk & Hd & Hdirs).
    destruct (save_images_loop w output_dir (snd converted) []
                (logged (map EvPrint msgs) st1)) as [img_paths st3].
    cbn [fst snd trace] in *.
    eexists (saves ++ [_]). split; [|split].
    + rewrite Htr. unfold st1. simpl. by rewrite <- !app_assoc.
    + exact Hdirs.
    + by eexists saves, _.
  - eexists. split; [|split; [done|split; [reflexivity|split; reflexivity]]].
    unfold st1. simpl. by rewrite <- !app_assoc.
Qed.

End Orchestrator.

(** ** The order of [sorted] *)

Lemma ascii_compare_refl (a : ascii) : Ascii.compare a a = Eq.
Proof. unfold Ascii.compare. apply N.compare_refl. Qed.

Lemma ascii_compare_lt_trans (a b c : ascii) :
  Ascii.compare a b = Lt → Ascii.compare b c = Lt → Ascii.compare a c = Lt.
Proof.
  unfold Ascii.compare. rewrite !N.compare_lt_iff. apply N.lt_trans.
Qed.

Lemma str_le_trans (a b c : string) : str_le a b → str_le b c → str_le a c.
Proof.
  unfold str_le, String.leb. revert b c.
  induction a as [|x a IH]; intros [|y b] [|z c]; simpl; try done.
  destruct (Ascii.compare x y) eqn:Hxy; try done;
    destruct (Ascii.compare y z) eqn:Hyz; try done.
  - apply Ascii.compare_eq_iff in Hxy, Hyz. subst.
    rewrite ascii_compare_refl. apply IH.
  - apply Ascii.compare_eq_iff in Hxy. subst. by rewrite Hyz.
  - apply Ascii.compare_eq_iff in Hyz. subst. by rewrite Hxy.
  - by rewrite (ascii_compare_lt_trans x y z).
Qed.

#[global] Instance str_le_transitive : Transitive str_le.
Proof. intros a b c. apply str_le_trans. Qed.

#[global] Instance str_le_total : Total str_le.
Proof. intros a b. apply String.leb_total. Qed.

#[global] Instance str_le_antisymm : AntiSymm (=) str_le.
Proof. intros a b. apply String.leb_antisym. Qed.

Lemma sorted_Sorted (names : list string) : Sorted str_le (sorted names).
Proof. apply Sorted_merge_sort. apply _. Qed.

Lemma sorted_Permutation (names : list string) : sorted names ≡ₚ names.
Proof. apply merge_sort_Permutation. Qed.


Section Run.

Context {image : Type}.
Variable w : world image.

Implicit Types (st : state image) (root file input_path : string).





Lemma files_listed st (p : string) :
  is_Some (files st !! p) → In p (map fst (map_to_list (files st))).
Proof.
  intros [c Hc]. apply list_elem_of_In, list_elem_of_fmap.
  exists (p, c). split; [done|]. by apply elem_of_map_to_list.
Qed.

Lemma clash_freeb_sound st : clash_freeb st = true → clash_free st.
Proof.
  unfold clash_freeb, clash_free.
  intros [Hdirs Hfiles]%andb_prop.
  rewrite forallb_forall in Hdirs. rewrite forallb_forall in Hfiles.
  split.
  - intros d p Hd Hp Heq. specialize (Hdirs p (files_listed st p Hp)).
    apply negb_true_iff, bool_decide_eq_false in Hdirs. apply Hdirs.
    rewrite <- Heq. apply list_elem_of_fmap. exists d.
    split; [done|]. by apply elem_of_elements.
  - intros p q Hp Hq. specialize (Hfiles p (files_listed st p Hp)).
    rewrite forallb_forall in Hfiles.
    specialize (Hfiles q (files_listed st q Hq)).
    by apply bool_decide_eq_true in Hfiles.
Qed.

Lemma makedirs_raisesb_sound st (path : string) :
  makedirs_raisesb st path = false → ¬ makedirs_raises st path.
Proof.
  unfold makedirs_raisesb, makedirs_raises.
  intros [Hne Hnone]%orb_false_elim [->|(d & p & Hd & Hp & Heq)]; [done|].
  assert (existsb (fun d =>
            existsb (fun p =>
              String.eqb (PosixPath.normpath d) (PosixPath.normpath p))
              (map fst (map_to_list (files st))))
            (PosixPath.dir_chain path) = true) as Hex; [|congruence].
  apply existsb_exists. exists d. split; [by apply list_elem_of_In|].
  apply existsb_exists. exists p. split; [by apply files_listed|].
  by apply String.eqb_eq.
Qed.



(** C9.  When the conversion of a supported file returns an absent text,
    the file has been dispatched, so the call of [ensure_dir] that precedes
    the dispatch has returned: no file stood in the way of the output
    folder.  Then the pipeline has ensured the file's output folder before
    it called [convert_file], and afterwards only prints that the file was
    skipped: the folder is left in place and no file is written. *)
Theorem skipped_file_keeps_output_dir root file st :
  file_ext file ∈ SUPPORTED_TYPES →
  fst (fst (convert_file w (PosixPath.join root file) st)) = None →
  ¬ makedirs_raises st (PosixPath.join OUTPUT_DIR (relpath w root RAW_DIR)) →
  let input_path := PosixPath.join root file in
  let output_dir := PosixPath.join OUTPUT_DIR (relpath w root RAW_DIR) in
  let st' := snd (process_file w root file st) in
  (∃ msgs,
     trace st'
     = trace st
       ++ [EvMakedirs output_dir; EvPrint (MsgProcessing input_path);
           EvConvert input_path]
       ++ map EvPrint msgs ++ [EvPrint (MsgSkipped input_path)])
  ∧ output_dir ∈ dirs st'
  ∧ files st' = files st.
Proof.
  intros Hext Hnone _ input_path output_dir st'.
  subst input_path output_dir st'.
  destruct (process_file_supported w root file st Hext)
    as (msgs & evs & Htr & Hdirs & Hcase).
  cbv zeta in *. unfold output_dir_of in *. rewrite Hnone in Hcase.
  destruct Hcase as (-> & Hfiles & _).
  split; [by exists msgs|split; [|done]].
  apply Hdirs, elem_of_union_r, elem_of_list_to_set, dir_chain_self.
  apply (output_dir_of_not_empty w).
Qed.



End Run.

(** ** Worked instances on the sample world *)

Lemma sample_supported (ext : string) :
  bool_decide (ext ∈ SUPPORTED_TYPES) = true → ext ∈ SUPPORTED_TYPES.
Proof. apply bool_decide_eq_true_1. Qed.

(** Two saved images receive figure numbers 1 and 2. *)
Lemma figure_numbers_sequential_witness :
  Sample.saved ≠ []
  ∧ figure_numbers
      (markdown_lines Sample.world Sample.pictures "Body" Sample.saved)
    = [1; 2].
Proof.
  assert (Sample.saved ≠ []) as Hne by discriminate.
  split; [exact Hne|].
  exact (proj1 (proj2 (figure_numbers_sequential Sample.world
                         Sample.pictures "Body" Sample.saved Hne))).
Defined.

(** No reader opens [data/broken.rtf] and the conversion tool fails on it;
    the reader fails on the second page of [data/torn.pdf] and on the third
    shape of [data/odd.pptx]. *)
Lemma converters_on_document_failure_witness :
  convert_pdf Sample.world "data/broken.rtf" Sample.empty_state
    = ((Some "", []),
       logged [EvPrint (MsgPdfFailed "data/broken.rtf" "not a PDF")]
         Sample.empty_state)
  ∧ convert_docx Sample.world "data/broken.rtf" Sample.empty_state
    = ((Some "", []),
       logged [EvPrint (MsgDocxFailed "data/broken.rtf" "not a Word file")]
         Sample.empty_state)
  ∧ convert_pptx Sample.world "data/broken.rtf" Sample.empty_state
    = ((Some "", []),
       logged [EvPrint (MsgPptxFailed "data/broken.rtf"
                          "not a PowerPoint file")]
         Sample.empty_state)
  ∧ convert_generic Sample.world "data/broken.rtf" Sample.empty_state
    = ((None, []),
       logged [EvPrint (MsgPandocFailed "data/broken.rtf" "pandoc died")]
         Sample.empty_state)
  ∧ convert_pdf Sample.world "data/torn.pdf" Sample.empty_state
    = ((Some "page one", [(7, "img_1_1.png")]),
       logged [EvPrint (MsgPdfFailed "data/torn.pdf" "bad page stream")]
         Sample.empty_state)
  ∧ convert_pptx Sample.world "data/odd.pptx" Sample.empty_state
    = ((Some ("# Slide 1" +:+ nl +:+ nl +:+ "Intro" +:+ nl +:+ nl +:+ "chart"),
        [(4, "img_slide1.png")]),
       logged [EvPrint (MsgPptxFailed "data/odd.pptx"
                          "shape type not recognised")]
         Sample.empty_state).
Proof.
  destruct (converters_on_document_failure Sample.world "data/broken.rtf"
              Sample.empty_state) as (Hpdf & Hdocx & Hpptx & Hgen & _).
  destruct (converters_on_document_failure Sample.world "data/torn.pdf"
              Sample.empty_state) as (_ & _ & _ & _ & Htorn & _).
  destruct (converters_on_document_failure Sample.world "data/odd.pptx"
              Sample.empty_state) as (_ & _ & _ & _ & _ & Hodd & _).
  split; [exact (Hpdf _ eq_refl)|].
  split; [exact (Hdocx _ eq_refl)|].
  split; [exact (Hpptx _ eq_refl)|].
  split; [exact (Hgen _ eq_refl)|].
  split; [exact (Htorn Sample.torn _ eq_refl eq_refl)|].
  exact (Hodd Sample.odd_deck _ eq_refl eq_refl).
Defined.

(** C2, the claim as stated fails: [data/torn.pdf] opens, the reader fails
    on its second page, and the converter returns the text and the image
    of the first page, where the claim has the empty text and no image. *)
Lemma parse_failure_keeps_parts_counterexample :
  pdfplumber_open Sample.world "data/torn.pdf" = Ok Sample.torn
  ∧ pdf_failure Sample.torn = Some "bad page stream"
  ∧ fst (convert_pdf Sample.world "data/torn.pdf" Sample.empty_state)
    = (Some "page one", [(7, "img_1_1.png")])
  ∧ trace (snd (convert_pdf Sample.world "data/torn.pdf" Sample.empty_state))
    = [EvPrint (MsgPdfFailed "data/torn.pdf" "bad page stream")]
  ∧ fst (convert_pdf Sample.world "data/torn.pdf" Sample.empty_state)
    ≠ (Some "", []).
Proof.
  split; [reflexivity|split; [reflexivity|split; [reflexivity|]]].
  split; [reflexivity|]. intros H. vm_compute in H. discriminate H.
Qed.

(** A missing file, an OCR failure, a blank image and a readable one. *)
Lemma describe_image_always_returns_witness :
  describe_image Sample.world Sample.pictures "clean_md/images/none.png"
    = "Failed to describe image: cannot identify image file clean_md/images/none.png"
  ∧ describe_image Sample.world Sample.pictures "clean_md/images/bad.png"
    = "Failed to describe image: engine error"
  ∧ describe_image Sample.world Sample.pictures "clean_md/images/blank.png"
    = "No readable text detected. Consider using a captioning model."
  ∧ describe_image Sample.world Sample.pictures "clean_md/images/total.png"
    = "Total: 42".
Proof.
  split; [|split; [|split]].
  - exact (proj1 (describe_image_always_returns Sample.world Sample.pictures
                    "clean_md/images/none.png") _ eq_refl).
  - exact (proj1 (proj2 (describe_image_always_returns Sample.world
                           Sample.pictures "clean_md/images/bad.png"))
             8 _ eq_refl eq_refl).
  - exact (proj1 (proj2 (proj2 (describe_image_always_returns Sample.world
                                  Sample.pictures "clean_md/images/blank.png")))
             7 _ eq_refl eq_refl eq_refl).
  - exact (proj1 (proj2 (proj2 (proj2 (describe_image_always_returns
             Sample.world Sample.pictures "clean_md/images/total.png")))
             1 _ eq_refl eq_refl eq_refl)).
Defined.

(** The sample deck: every part is separated by a blank line. *)
Lemma pptx_text_blank_line_joined_witness :
  Presentation Sample.world "data/deck.pptx" = Ok Sample.deck
  ∧ fst (fst (convert_pptx Sample.world "data/deck.pptx" Sample.empty_state))
    = Some ("# Slide 1" +:+ nl +:+ nl +:+ "a" +:+ nl +:+ nl +:+ "b"
            +:+ nl +:+ nl +:+ "# Slide 2").
Proof.
  split; [reflexivity|].
  exact (proj1 (pptx_text_blank_line_joined Sample.world "data/deck.pptx"
                  Sample.deck Sample.empty_state eq_refl)).
Defined.

(** C5, the claim as stated fails: on the sample deck the converter puts a
    blank line between the heading and the shape texts of a slide, where
    the claim has single newlines. *)
Lemma pptx_single_newline_counterexample :
  fst (fst (convert_pptx Sample.world "data/deck.pptx" Sample.empty_state))
    = Some ("# Slide 1" +:+ nl +:+ nl +:+ "a" +:+ nl +:+ nl +:+ "b"
            +:+ nl +:+ nl +:+ "# Slide 2")
  ∧ pptx_text_spec Sample.deck
    = "# Slide 1" +:+ nl +:+ "a" +:+ nl +:+ "b" +:+ nl +:+ nl +:+ "# Slide 2"
  ∧ fst (fst (convert_pptx Sample.world "data/deck.pptx" Sample.empty_state))
    ≠ Some (pptx_text_spec Sample.deck).
Proof.
  split; [reflexivity|split; [reflexivity|]].
  intros H. vm_compute in H. discriminate H.
Qed.

(** The sample memo: the second and fourth relationships give images. *)
Lemma docx_image_names_witness :
  Document Sample.world "data/memo.docx" = Ok Sample.memo
  ∧ snd (fst (convert_docx Sample.world "data/memo.docx" Sample.empty_state))
    = [(5, "img_2.png"); (6, "img_4.png")].
Proof.
  split; [reflexivity|].
  exact (proj1 (docx_image_names Sample.world "data/memo.docx" Sample.memo
                  Sample.empty_state eq_refl)).
Defined.

(** A spreadsheet is outside the supported set. *)
Lemma convert_file_unsupported_witness :
  (lower (snd (PosixPath.splitext "data/table.csv")) ∉ SUPPORTED_TYPES)
  ∧ convert_file Sample.world "data/table.csv" Sample.empty_state
    = ((None, []), Sample.empty_state).
Proof.
  assert (lower (snd (PosixPath.splitext "data/table.csv"))
            ∉ SUPPORTED_TYPES) as Hext.
  { intros H. apply (bool_decide_pack _) in H. vm_compute in H. exact H. }
  split; [exact Hext|].
  exact (convert_file_unsupported Sample.world "data/table.csv"
           Sample.empty_state Hext).
Defined.

(** The file the conversion tool fails on is skipped, its folder stays. *)
Lemma skipped_file_keeps_output_dir_witness :
  file_ext "broken.rtf" ∈ SUPPORTED_TYPES
  ∧ fst (fst (convert_file Sample.world (PosixPath.join "data" "broken.rtf")
                Sample.empty_state)) = None
  ∧ ¬ makedirs_raises Sample.empty_state "clean_md/."
  ∧ trace (snd (process_file Sample.world "data" "broken.rtf"
                  Sample.empty_state))
    = [ EvMakedirs "clean_md/."; EvPrint (MsgProcessing "data/broken.rtf");
        EvConvert "data/broken.rtf";
        EvPrint (MsgPandocFailed "data/broken.rtf" "pandoc died");
        EvPrint (MsgSkipped "data/broken.rtf") ]
  ∧ "clean_md/." ∈ dirs (snd (process_file Sample.world "data" "broken.rtf"
                                Sample.empty_state))
  ∧ files (snd (process_file Sample.world "data" "broken.rtf"
                  Sample.empty_state)) = ∅.
Proof.
  assert (file_ext "broken.rtf" ∈ SUPPORTED_TYPES) as Hext
    by (apply sample_supported; vm_compute; reflexivity).
  assert (¬ makedirs_raises Sample.empty_state "clean_md/.") as Hfree
    by (apply makedirs_raisesb_sound; vm_compute; reflexivity).
  destruct (skipped_file_keeps_output_dir Sample.world "data" "broken.rtf"
              Sample.empty_state Hext eq_refl Hfree) as (_ & Hdir & Hfiles).
  split; [exact Hext|split; [reflexivity|split; [exact Hfree|]]].
  split; [reflexivity|split; [exact Hdir|exact Hfiles]].
Defined.





(** * Further properties *)

(** ** Image names *)

Lemma string_cons_inj (c : ascii) (s t : string) :
  String c s = String c t → s = t.
Proof. by intros [= ->]. Qed.

Lemma str_of_nat_app_inj (n m : nat) (s t : string) :
  no_leading_digit s → no_leading_digit t →
  str_of_nat n +:+ s = str_of_nat m +:+ t → n = m ∧ s = t.
Proof.
  intros Hs Ht Heq. unfold str_of_nat in Heq.
  pose proof (read_uint_print (Nat.to_uint n) s Hs) as Hn.
  pose proof (read_uint_print (Nat.to_uint m) t Ht) as Hm.
  rewrite Heq, Hm in Hn. injection Hn as Hu <-.
  split; [|done]. symmetry. by apply Unsigned.to_uint_inj.
Qed.

Lemma pdf_img_name_inj (p i p' i' : nat) :
  pdf_img_name p i = pdf_img_name p' i' → p = p' ∧ i = i'.
Proof.
  unfold pdf_img_name. intros Heq.
  do 4 apply string_cons_inj in Heq.
  apply str_of_nat_app_inj in Heq as [-> Heq]; [|done..].
  apply string_cons_inj in Heq.
  apply str_of_nat_app_inj in Heq as [-> _]; done.
Qed.

Lemma pptx_img_name_inj (k k' : nat) :
  pptx_img_name k = pptx_img_name k' → k = k'.
Proof.
  unfold pptx_img_name. intros Heq.
  do 9 apply string_cons_inj in Heq.
  by apply str_of_nat_app_inj in Heq as [-> _].
Qed.

Lemma docx_img_name_inj (k k' : nat) :
  docx_img_name k = docx_img_name k' → k = k'.
Proof.
  unfold docx_img_name. intros Heq.
  do 4 apply string_cons_inj in Heq.
  by apply str_of_nat_app_inj in Heq as [-> _].
Qed.

Lemma elem_of_zip_seq {A} (start : nat) (l : list A) (k : nat) (a : A) :
  (k, a) ∈ zip (seq start (length l)) l
  ↔ ∃ i : nat, k = start + i ∧ l !! i = Some a.
Proof.
  rewrite elem_of_lookup_zip_with. split.
  - intros (i & x & y & [= -> ->] & Hx & Hy).
    apply lookup_seq in Hx as [-> _]. by exists i.
  - intros (i & -> & Hi). exists i, (start + i), a.
    split; [done|split; [|done]].
    apply lookup_seq. split; [done|]. by apply lookup_lt_Some in Hi.
Qed.

(** ** Converters, continued *)

Section ConvertersMore.

Context {image : Type}.
Variable w : world image.

Implicit Types (input_path : string) (st : state image).

Lemma elem_of_pdf_page_keyed (page_idx : nat) (page : pdf_page image)
    (im : image) (p i : nat) :
  (im, (p, i)) ∈ pdf_page_keyed page_idx page
  ↔ p = page_idx
    ∧ ∃ i0 : nat, i = S i0 ∧ page_regions page !! i0 = Some (Some im).
Proof.
  unfold pdf_page_keyed. rewrite list_elem_of_omap. split.
  - intros ([k [im'|]] & Hin & Hf); [|done].
    simplify_eq/=.
    apply elem_of_zip_seq in Hin as (i0 & -> & Hi0). eauto.
  - intros (-> & i0 & -> & Hi0). exists (S i0, Some im).
    split; [|done]. apply elem_of_zip_seq. by exists i0.
Qed.

Lemma elem_of_pdf_keyed (page_idx : nat) (pages : list (pdf_page image))
    (im : image) (p i : nat) :
  (im, (p, i)) ∈ pdf_keyed page_idx pages
  ↔ ∃ (p0 i0 : nat) page,
      p = page_idx + p0 ∧ i = S i0
      ∧ pages !! p0 = Some page
      ∧ page_regions page !! i0 = Some (Some im).
Proof.
  revert page_idx. induction pages as [|page rest IH]; intros page_idx.
  - simpl. split; [by intros ?%elem_of_nil|by intros (? & ? & ? & ? & ? & ? & ?)].
  - cbn [pdf_keyed]. rewrite elem_of_app, elem_of_pdf_page_keyed, IH. split.
    + intros [(-> & i0 & -> & Hi0)|(p0 & i0 & pg & -> & -> & Hp & Hi)].
      * exists 0, i0, page. by rewrite Nat.add_0_r.
      * exists (S p0), i0, pg. split; [lia|done].
    + intros ([|p0] & i0 & pg & -> & -> & Hp & Hi); simpl in Hp.
      * injection Hp as ->. left. rewrite Nat.add_0_r. eauto.
      * right. exists p0, i0, pg. split; [lia|done].
Qed.

Lemma NoDup_pdf_page_keys (page_idx : nat) (page : pdf_page image) :
  NoDup (map snd (pdf_page_keyed page_idx page)).
Proof.
  unfold pdf_page_keyed. generalize 1 as start.
  induction (page_regions page) as [|[im|] rest IH]; intros start.
  - constructor.
  - cbn [length seq zip zip_with omap list_omap fst snd fmap option_fmap
         option_map map].
    constructor; [|apply IH].
    intros ([im' [p i]] & Heq & Hin)%list_elem_of_fmap.
    apply list_elem_of_omap in Hin as ([k [im''|]] & Hin & Hf); [|done].
    simplify_eq/=.
    apply elem_of_zip_seq in Hin as (i0 & Hk & _). lia.
  - cbn [length seq zip zip_with omap list_omap fst snd fmap option_fmap
         option_map]. apply IH.
Qed.

Lemma NoDup_pdf_keys (page_idx : nat) (pages : list (pdf_page image)) :
  NoDup (map snd (pdf_keyed page_idx pages)).
Proof.
  revert page_idx. induction pages as [|page rest IH]; intros page_idx.
  - constructor.
  - cbn [pdf_keyed]. rewrite map_app. apply NoDup_app.
    split; [apply NoDup_pdf_page_keys|split; [|apply IH]].
    intros [p i] ([im [p1 i1]] & Heq & Hin)%list_elem_of_fmap
      ([im' [p2 i2]] & Heq' & Hin')%list_elem_of_fmap.
    simplify_eq/=.
    apply elem_of_pdf_page_keyed in Hin as (-> & _).
    apply elem_of_pdf_keyed in Hin' as (p0 & _ & _ & Hp & _). lia.
Qed.

Lemma NoDup_docx_names (idx : nat) (rs : list (relationship image)) :
  NoDup (map snd (docx_rels_loop idx rs []))
  ∧ ∀ name, name ∈ map snd (docx_rels_loop idx rs []) →
      ∃ k : nat, (idx ≤ k)%nat ∧ name = docx_img_name k.
Proof.
  revert idx. induction rs as [|rel rest IH]; intros idx.
  - split; [constructor|]. by intros name ?%elem_of_nil.
  - rewrite docx_rels_loop_cons. destruct (IH (S idx)) as [Hnd Hge].
    assert (∀ name, name ∈ map snd (docx_rels_loop (S idx) rest []) →
              ∃ k : nat, (idx ≤ k)%nat ∧ name = docx_img_name k) as Hge'.
    { intros name (k & Hk & ->)%Hge. exists k. split; [lia|done]. }
    unfold docx_image_at.
    destruct (contains "image" (target_ref rel)); [|by split].
    destruct (rel_image rel) as [im|]; [|by split].
    cbn [fmap option_fmap option_map option_list app map snd]. split.
    + constructor; [|done].
      intros (k & Hk & Heq)%Hge. apply docx_img_name_inj in Heq. lia.
    + intros name [->|Hin]%elem_of_cons; [|by apply Hge'].
      by exists idx.
Qed.

Lemma elem_of_deck_pictures (slide_idx : nat) (slides : list (slide image))
    (im : image) (k : nat) :
  (im, k) ∈ deck_pictures slide_idx slides
  ↔ ∃ (k0 : nat) sl sh,
      k = slide_idx + k0 ∧ slides !! k0 = Some sl ∧ sh ∈ shapes sl
      ∧ shape_type sh = Ok (Some 13%Z) ∧ shape_image sh = Some im.
Proof.
  revert slide_idx. induction slides as [|sl rest IH]; intros slide_idx.
  - simpl. split; [by intros ?%elem_of_nil|].
    by intros (? & ? & ? & ? & ? & ?).
  - cbn [deck_pictures]. rewrite elem_of_app, list_elem_of_fmap, IH.
    unfold slide_pictures. split.
    + intros [(im' & [= -> ->] & Hin)|(k0 & s & sh & -> & Hk & Hsh)].
      * apply list_elem_of_omap in Hin as (sh & Hsh & Hpic).
        unfold picture_of_shape in Hpic.
        case_bool_decide as Hty; [|done].
        exists 0, sl, sh. by rewrite Nat.add_0_r.
      * exists (S k0), s, sh. split; [lia|done].
    + intros ([|k0] & s & sh & -> & Hk & Hsh & Hty & Him); simpl in Hk.
      * injection Hk as ->. left. exists im. rewrite Nat.add_0_r.
        split; [done|]. apply list_elem_of_omap. exists sh.
        split; [done|]. unfold picture_of_shape.
        by rewrite bool_decide_eq_true_2.
      * right. exists k0, s, sh. split; [lia|done].
Qed.

Lemma deck_pictures_split (slide_idx : nat) (slides : list (slide image))
    (k0 : nat) (sl : slide image) :
  slides !! k0 = Some sl →
  ∃ before after,
    deck_pictures slide_idx slides
    = before ++ map (fun im => (im, slide_idx + k0)) (slide_pictures sl)
        ++ after.
Proof.
  revert slide_idx k0.
  induction slides as [|s rest IH]; intros slide_idx k0 Hk; [done|].
  destruct k0 as [|k0]; simpl in Hk.
  - injection Hk as ->. exists [], (deck_pictures (S slide_idx) rest).
    by rewrite Nat.add_0_r.
  - destruct (IH (S slide_idx) k0 Hk) as (before & after & Heq).
    exists (map (fun im => (im, slide_idx)) (slide_pictures s) ++ before),
      after.
    cbn [deck_pictures]. rewrite Heq, <- app_assoc.
    by replace (slide_idx + S k0) with (S slide_idx + k0) by lia.
Qed.

(** X1.  For a PDF that opens, the text is the texts of the pages read,
    an absent or empty page text counting as the empty string, joined by
    blank lines; the images are those of the image regions of the pages
    read whose crop succeeds, in page order and in region order, the image
    of region i of page p (both from 1) named [img_p_i.png].  A region
    whose crop fails is left out and changes neither the text nor the
    other images.  The pages read are all the pages when the reader raises
    on none of them, and then nothing is logged; otherwise they are the
    pages before the one on which it raises, with the text of that page
    alone when it is the list of its images that raises, and the failure
    is logged. *)
Theorem pdf_extraction input_path (pages : list (pdf_page image)) st :
  pdfplumber_open w input_path = Ok pages →
  convert_pdf w input_path st
  = ((Some (join (nl +:+ nl) (map page_text (pages_read pages))),
      map (fun e => (fst e,
                     "img_" +:+ str_of_nat (fst (snd e)) +:+ "_"
                       +:+ str_of_nat (snd (snd e)) +:+ ".png"))
        (pdf_keyed 1 (pages_read pages))),
     match pdf_failure pages with
     | Some e => logged [EvPrint (MsgPdfFailed input_path e)] st
     | None => st
     end)
  ∧ (∀ im (p i : nat),
       (im, (p, i)) ∈ pdf_keyed 1 (pages_read pages)
       ↔ ∃ (p0 i0 : nat) page,
           p = S p0 ∧ i = S i0 ∧ pages_read pages !! p0 = Some page
           ∧ page_regions page !! i0 = Some (Some im))
  ∧ (pdf_failure pages = None → pages_read pages = pages)
  ∧ (∀ good bad rest,
       pages = good ++ bad :: rest → pdf_failure good = None →
       (∀ e, extract_text bad = Raise e →
             pages_read pages = good ∧ pdf_failure pages = Some e)
       ∧ (∀ t e, extract_text bad = Ok t → page_images bad = Raise e →
            pages_read pages
            = good ++ [ {| extract_text := Ok t; page_images := Ok [] |} ]
            ∧ pdf_failure pages = Some e)).
Proof.
  intros Hopen. split; [|split; [|split]].
  - rewrite (convert_pdf_read w _ pages st Hopen).
    destruct (pdf_failure pages); [done|]. by rewrite logged_nil.
  - intros im p i. apply elem_of_pdf_keyed.
  - apply pages_read_clean.
  - intros good bad rest -> Hgood.
    destruct (pages_read_cut good bad rest Hgood) as [-> ->]. split.
    + intros e He. simpl. rewrite He. by rewrite app_nil_r.
    + intros t e Ht He. simpl. by rewrite Ht, He.
Qed.

(** X2.  The image names of one PDF, and those of one DOCX, are pairwise
    distinct, whatever the document: within such a document no extracted
    image is saved over another. *)
Theorem pdf_docx_image_names_distinct input_path st :
  NoDup (map snd (snd (fst (convert_pdf w input_path st))))
  ∧ NoDup (map snd (snd (fst (convert_docx w input_path st)))).
Proof.
  split.
  - destruct (pdfplumber_open w input_path) as [pages|e] eqn:Hopen;
      [|unfold convert_pdf; rewrite Hopen; constructor].
    rewrite (convert_pdf_read w _ pages st Hopen). cbn [fst snd].
    rewrite map_map.
    replace (map (fun e => snd (pdf_named e)) (pdf_keyed 1 (pages_read pages)))
      with (map (fun k => pdf_img_name (fst k) (snd k))
              (map snd (pdf_keyed 1 (pages_read pages))))
      by (by rewrite map_map).
    apply NoDup_fmap_2; [|apply NoDup_pdf_keys].
    intros [p i] [p' i'] Heq. cbv beta in Heq. cbn [fst snd] in Heq.
    by apply pdf_img_name_inj in Heq as [-> ->].
  - unfold convert_docx.
    destruct (Document w input_path) as [doc|e]; [|constructor].
    apply NoDup_docx_names.
Qed.

(** X3.  For a PPTX that opens, the images are the pictures (shapes of
    type 13 whose payload decodes) of the slides and shapes read, in slide
    order and shape order, every picture of slide k (from 1) named
    [img_slide{k}.png]; a slide of which two or more pictures are read
    therefore yields the same name more than once.  The slides and shapes
    read are all those of the deck when the reader raises on none of them,
    and then nothing is logged; otherwise they end with the shape on whose
    text or type the reader raises, the pictures after it are not
    extracted, and the failure is logged. *)
Theorem pptx_pictures input_path (slides : list (slide image)) st :
  Presentation w input_path = Ok slides →
  let images := snd (fst (convert_pptx w input_path st)) in
  images
  = map (fun e => (fst e, "img_slide" +:+ str_of_nat (snd e) +:+ ".png"))
      (deck_pictures 1 (slides_read slides))
  ∧ (∀ im (k : nat),
       (im, k) ∈ deck_pictures 1 (slides_read slides)
       ↔ ∃ (k0 : nat) sl sh,
           k = S k0 ∧ slides_read slides !! k0 = Some sl ∧ sh ∈ shapes sl
           ∧ shape_type sh = Ok (Some 13%Z) ∧ shape_image sh = Some im)
  ∧ (∀ (k0 : nat) sl,
       slides_read slides !! k0 = Some sl →
       (2 ≤ length (slide_pictures sl))%nat →
       ¬ NoDup (map snd images))
  ∧ snd (convert_pptx w input_path st)
    = match deck_failure slides with
      | Some e => logged [EvPrint (MsgPptxFailed input_path e)] st
      | None => st
      end
  ∧ (deck_failure slides = None → slides_read slides = slides)
  ∧ (∀ good bad rest e,
       slides = good ++ bad :: rest →
       deck_failure good = None → shapes_failure (shapes bad) = Some e →
       slides_read slides
       = good ++ [ {| shapes := shapes_read (shapes bad) |} ]
       ∧ deck_failure slides = Some e)
  ∧ (∀ (shs good : list (shape image)) bad rest,
       shs = good ++ bad :: rest → shapes_failure good = None →
       (∀ e, shape_text bad = Raise e →
             shapes_read shs = good ∧ shapes_failure shs = Some e)
       ∧ (∀ t e, shape_text bad = Ok t → shape_type bad = Raise e →
            shapes_read shs
            = good ++ [ {| shape_text := Ok t; shape_type := Ok None;
                           shape_image := None |} ]
            ∧ shapes_failure shs = Some e)).
Proof.
  intros Hopen images.
  assert (images = map (fun e => (fst e, pptx_img_name (snd e)))
                     (deck_pictures 1 (slides_read slides))) as Himages.
  { subst images. by rewrite (convert_pptx_read w _ slides st Hopen). }
  split; [done|split; [intros im k; apply elem_of_deck_pictures|]].
  split; [|split; [|split; [|split]]].
  - intros k0 sl Hk Hlen. rewrite Himages.
    destruct (deck_pictures_split 1 (slides_read slides) k0 sl Hk)
      as (before & after & ->).
    destruct (slide_pictures sl) as [|a [|b rest]]; simpl in Hlen; [lia..|].
    rewrite !map_app. cbn [map fst snd].
    intros (_ & _ & Hnd)%NoDup_app. apply NoDup_app in Hnd as (Hnd & _).
    apply NoDup_cons in Hnd as [Hnotin _]. apply Hnotin, list_elem_of_here.
  - rewrite (convert_pptx_read w _ slides st Hopen).
    destruct (deck_failure slides); [done|]. by rewrite logged_nil.
  - apply slides_read_clean.
  - intros good bad rest e -> Hgood Hbad.
    apply (slides_read_cut good bad rest e Hgood Hbad).
  - intros shs good bad rest -> Hgood.
    destruct (shapes_read_cut good bad rest Hgood) as [-> ->]. split.
    + intros e He. simpl. rewrite He. by rewrite app_nil_r.
    + intros t e Ht He. simpl. by rewrite Ht, He.
Qed.

End ConvertersMore.

(** ** Paths and extensions *)


Lemma slice_from_app_shift (pre s : string) (i : nat) :
  slice_from (String.length pre + i) (pre +:+ s) = slice_from i s.
Proof. induction pre as [|c pre IH]; [done|exact IH]. Qed.

Lemma length_app (a b : string) :
  String.length (a +:+ b) = String.length a + String.length b.
Proof. induction a as [|c a IH]; [done|]. simpl. by rewrite <- IH. Qed.

Lemma rfind_from_bounds (c : ascii) (s : string) (i last : Z) :
  rfind_from c s i last = last
  ∨ (i ≤ rfind_from c s i last < i + Z.of_nat (String.length s))%Z.
Proof.
  revert i last. induction s as [|a s IH]; intros i last; [by left|].
  cbn [rfind_from String.length].
  destruct (IH (i + 1)%Z (if Ascii.eqb a c then i else last)) as [->|Hb].
  - destruct (Ascii.eqb a c); [right; lia|by left].
  - right. lia.
Qed.

Lemma rfind_bounds (c : ascii) (s : string) :
  (-1 ≤ rfind c s < Z.of_nat (String.length s))%Z.
Proof.
  unfold rfind. destruct (rfind_from_bounds c s 0 (-1)) as [->|Hb]; lia.
Qed.

Lemma rfind_from_shift (c : ascii) (s : string) (i last : Z) :
  rfind_from c s i last
  = if (rfind c s <? 0)%Z then last else (i + rfind c s)%Z.
Proof.
  revert i last. induction s as [|a s IH]; intros i last; [done|].
  unfold rfind. cbn [rfind_from]. rewrite (IH (i + 1)%Z), (IH (0 + 1)%Z).
  pose proof (rfind_bounds c s) as Hb.
  destruct (Z.ltb_spec (rfind c s) 0) as [Hlt|Hge].
  - destruct (Ascii.eqb a c).
    + rewrite (proj2 (Z.ltb_ge 0 0)) by lia. lia.
    + by rewrite (proj2 (Z.ltb_lt (-1) 0)) by lia.
  - rewrite (proj2 (Z.ltb_ge (0 + 1 + rfind c s) 0)) by lia. lia.
Qed.

Lemma rfind_cons (c a : ascii) (s : string) :
  rfind c (String a s)
  = if (rfind c s <? 0)%Z then (if Ascii.eqb a c then 0 else -1)%Z
    else (1 + rfind c s)%Z.
Proof. unfold rfind at 1. cbn [rfind_from]. by rewrite rfind_from_shift. Qed.

Lemma rfind_app (c : ascii) (pre s : string) :
  rfind c (pre +:+ s)
  = if (rfind c s <? 0)%Z then rfind c pre
    else (Z.of_nat (String.length pre) + rfind c s)%Z.
Proof.
  pose proof (rfind_bounds c s) as Hs.
  induction pre as [|a pre IH].
  - change ("" +:+ s) with s. destruct (Z.ltb_spec (rfind c s) 0); [|done].
    unfold rfind at 2. simpl. lia.
  - change (String a pre +:+ s) with (String a (pre +:+ s)).
    rewrite !rfind_cons, IH. pose proof (rfind_bounds c pre) as Hp.
    destruct (Z.ltb_spec (rfind c s) 0) as [Hlt|Hge]; [done|].
    rewrite (proj2 (Z.ltb_ge _ 0)) by lia.
    cbn [String.length]. lia.
Qed.

Lemma rfind_endswith (c : ascii) (s : string) :
  endswith_char c s = true →
  rfind c s = (Z.of_nat (String.length s) - 1)%Z.
Proof.
  induction s as [|a s IH]; [done|]. intros Hend. rewrite rfind_cons.
  destruct s as [|b s].
  - simpl in Hend. rewrite Hend. done.
  - rewrite IH by exact Hend. pose proof (rfind_bounds c (String b s)).
    rewrite (proj2 (Z.ltb_ge _ 0)) by (cbn [String.length]; lia).
    cbn [String.length]. lia.
Qed.

Lemma rfind_not_contains (c : ascii) (s : string) :
  contains (String c "") s = false → rfind c s = (-1)%Z.
Proof.
  induction s as [|a s IH]; [done|]. cbn [contains startswith].
  intros [Ha Hs]%orb_false_elim. rewrite rfind_cons, (IH Hs).
  rewrite andb_true_r in Ha. rewrite Ascii.eqb_sym in Ha. by rewrite Ha.
Qed.

Lemma splitext_scan_shift (pre file : string) (i k d : nat) :
  snd (PosixPath.splitext_scan (pre +:+ file) (String.length pre + i) k
         (String.length pre + d))
  = snd (PosixPath.splitext_scan file i k d).
Proof.
  revert i. induction k as [|k IH]; intros i; [done|].
  cbn [PosixPath.splitext_scan]. unfold char_at.
  rewrite !slice_from_app_shift.
  destruct (negb _); [done|].
  replace (S (String.length pre + i)) with (String.length pre + S i) by lia.
  apply IH.
Qed.

Lemma splitext_ext_prefix (pre file : string) :
  rfind "/" file = (-1)%Z →
  rfind "/" pre = (Z.of_nat (String.length pre) - 1)%Z →
  snd (PosixPath.splitext (pre +:+ file)) = snd (PosixPath.splitext file).
Proof.
  intros Hfile Hpre. unfold PosixPath.splitext.
  rewrite !rfind_app, Hfile, Hpre. cbn [Z.ltb Z.compare].
  pose proof (rfind_bounds "." file) as Hd.
  pose proof (rfind_bounds "." pre) as Hp.
  destruct (Z.ltb_spec (rfind "." file) 0) as [Hlt|Hge].
  - assert (rfind "." file = (-1)%Z) as -> by lia.
    destruct (Z.gtb_spec (rfind "." pre) (Z.of_nat (String.length pre) - 1));
      [lia|done].
  - destruct (Z.gtb_spec (Z.of_nat (String.length pre) + rfind "." file)
                (Z.of_nat (String.length pre) - 1)); [|lia].
    destruct (Z.gtb_spec (rfind "." file) (-1)); [|lia].
    replace (Z.to_nat (Z.of_nat (String.length pre) - 1 + 1))
      with (String.length pre + 0) by lia.
    replace (Z.to_nat (Z.of_nat (String.length pre) + rfind "." file
                       - (Z.of_nat (String.length pre) - 1 + 1)))
      with (Z.to_nat (rfind "." file)) by lia.
    replace (Z.to_nat (Z.of_nat (String.length pre) + rfind "." file))
      with (String.length pre + Z.to_nat (rfind "." file)) by lia.
    rewrite splitext_scan_shift.
    replace (Z.to_nat (-1 + 1)) with 0 by lia.
    by replace (Z.to_nat (rfind "." file - (-1 + 1)))
      with (Z.to_nat (rfind "." file)) by lia.
Qed.

Lemma splitext_ext_join (root file : string) :
  contains "/" file = false →
  snd (PosixPath.splitext (PosixPath.join root file))
  = snd (PosixPath.splitext file).
Proof.
  intros Hfile. apply rfind_not_contains in Hfile.
  unfold PosixPath.join. destruct (startswith "/" file); [done|].
  destruct (String.eqb_spec root "") as [->|Hroot]; cbn [orb].
  - by apply (splitext_ext_prefix "" file).
  - destruct (endswith_char "/" root) eqn:Hend.
    + apply splitext_ext_prefix; [done|]. by apply rfind_endswith.
    + replace (root +:+ "/" +:+ file) with ((root +:+ "/") +:+ file)
        by (by rewrite append_assoc).
      apply splitext_ext_prefix; [done|].
      rewrite rfind_app, length_app.
      change (rfind "/" "/") with 0%Z. change (String.length "/") with 1.
      cbn [Z.ltb Z.compare]. lia.
Qed.



(** X6.  For a directory entry (a name without a separator), the extension
    [convert_file] computes from the joined input path is the extension the
    pipeline's filter computed from the name alone: the filter and the
    dispatcher decide on the same extension. *)
Theorem filter_and_dispatcher_same_extension (root file : string) :
  contains "/" file = false →
  lower (snd (PosixPath.splitext (PosixPath.join root file)))
  = lower (snd (PosixPath.splitext file)).
Proof. intros Hfile. by rewrite splitext_ext_join. Qed.

Lemma filter_and_dispatcher_same_extension_witness :
  contains "/" "Report.PDF" = false
  ∧ lower (snd (PosixPath.splitext (PosixPath.join "data/sub" "Report.PDF")))
    = ".pdf".
Proof.
  split; [reflexivity|].
  exact (filter_and_dispatcher_same_extension "data/sub" "Report.PDF"
           eq_refl).
Defined.

Section Dispatcher.

Context {image : Type}.
Variable w : world image.

Implicit Types (input_path : string) (st : state image).

Lemma convert_file_supported input_path st :
  lower (snd (PosixPath.splitext input_path)) ∈ SUPPORTED_TYPES →
  let ext := lower (snd (PosixPath.splitext input_path)) in
  (ext = ".pdf"
   ∧ convert_file w input_path st = convert_pdf w input_path st)
  ∨ (ext = ".docx"
     ∧ convert_file w input_path st = convert_docx w input_path st)
  ∨ (ext = ".pptx"
     ∧ convert_file w input_path st = convert_pptx w input_path st)
  ∨ ((ext = ".txt" ∨ ext = ".html" ∨ ext = ".htm" ∨ ext = ".rtf")
     ∧ convert_file w input_path st = convert_generic w input_path st).
Proof.
  intros Hext ext. unfold convert_file. fold ext. fold ext in Hext.
  unfold SUPPORTED_TYPES in Hext.
  rewrite !elem_of_union, !elem_of_singleton in Hext.
  destruct (String.eqb_spec ext ".pdf") as [Hpdf|Hpdf]; [by left|].
  destruct (String.eqb_spec ext ".docx") as [Hdocx|Hdocx];
    [by right; left|].
  destruct (String.eqb_spec ext ".pptx") as [Hpptx|Hpptx];
    [by right; right; left|].
  right; right; right.
  assert (ext = ".txt" ∨ ext = ".html" ∨ ext = ".htm" ∨ ext = ".rtf")
    as Hgen by tauto.
  split; [done|]. rewrite bool_decide_eq_true_2; [done|].
  unfold GENERIC_TYPES. rewrite !elem_of_union, !elem_of_singleton. tauto.
Qed.

(** X4.  Every extension of the supported set reaches a converter: for a
    path whose lower-cased extension is in [SUPPORTED_TYPES],
    [convert_file] is [convert_pdf], [convert_docx], [convert_pptx] or
    [convert_generic] according to the extension, upper or lower case, and
    never its final [else] branch. *)
Theorem supported_types_are_dispatched input_path st :
  lower (snd (PosixPath.splitext input_path)) ∈ SUPPORTED_TYPES →
  let ext := lower (snd (PosixPath.splitext input_path)) in
  (ext = ".pdf"
   ∧ convert_file w input_path st = convert_pdf w input_path st)
  ∨ (ext = ".docx"
     ∧ convert_file w input_path st = convert_docx w input_path st)
  ∨ (ext = ".pptx"
     ∧ convert_file w input_path st = convert_pptx w input_path st)
  ∨ ((ext = ".txt" ∨ ext = ".html" ∨ ext = ".htm" ∨ ext = ".rtf")
     ∧ convert_file w input_path st = convert_generic w input_path st).
Proof. apply convert_file_supported. Qed.

End Dispatcher.

Lemma supported_types_are_dispatched_witness :
  lower (snd (PosixPath.splitext "data/Report.PDF")) ∈ SUPPORTED_TYPES
  ∧ convert_file Sample.world "data/Report.PDF" Sample.empty_state
    = convert_pdf Sample.world "data/Report.PDF" Sample.empty_state.
Proof.
  assert (lower (snd (PosixPath.splitext "data/Report.PDF"))
            ∈ SUPPORTED_TYPES) as Hext
    by (apply sample_supported; vm_compute; reflexivity).
  split; [exact Hext|].
  destruct (supported_types_are_dispatched Sample.world "data/Report.PDF"
              Sample.empty_state Hext)
    as [[_ H]|[[Hne _]|[[Hne _]|[[Hne|[Hne|[Hne|Hne]]] _]]]];
    [exact H|discriminate Hne..].
Defined.

(** ** The output tree *)

Section Ops.

Context {image : Type}.

Implicit Types (ops : list (string * file_op image)).
Implicit Types (fs : gmap string (file_content image)) (p : string).

Lemma apply_ops_app ops1 ops2 fs :
  apply_ops (ops1 ++ ops2) fs = apply_ops ops2 (apply_ops ops1 fs).
Proof. apply foldl_app. Qed.

Lemma apply_op_lookup fs (op : string * file_op image) p :
  apply_op fs op !! p
  = if String.eqb (fst op) p then op_on (snd op) (fs !! p) else fs !! p.
Proof.
  destruct op as [k [c'|]]; unfold apply_op, op_on, truncate_file;
    cbn [fst snd].
  - destruct (String.eqb_spec k p) as [->|Hne];
      [apply lookup_insert_eq|by apply lookup_insert_ne].
  - destruct (String.eqb_spec k p) as [->|Hne].
    + destruct (fs !! p) eqn:Hp; [apply lookup_insert_eq|done].
    + destruct (fs !! k); [by apply lookup_insert_ne|done].
Qed.

Lemma apply_ops_lookup ops fs p :
  apply_ops ops fs !! p = ops_on ops p (fs !! p).
Proof.
  revert fs. induction ops as [|op ops IH]; intros fs; [done|].
  cbn [apply_ops foldl ops_on]. unfold apply_ops in IH.
  by rewrite IH, apply_op_lookup.
Qed.

Lemma ops_on_app ops1 ops2 p c :
  ops_on (ops1 ++ ops2) p c = ops_on ops2 p (ops_on ops1 p c).
Proof.
  revert c. induction ops1 as [|op ops1 IH]; intros c; [done|]. apply IH.
Qed.

Lemma ops_on_untouched ops p c : p ∉ map fst ops → ops_on ops p c = c.
Proof.
  revert c. induction ops as [|op ops IH]; intros c Hp; [done|].
  cbn [map] in Hp. apply not_elem_of_cons in Hp as [Hne Hp].
  cbn [ops_on]. rewrite (proj2 (String.eqb_neq _ _)) by done. by apply IH.
Qed.

(** What a list of operations makes of one file: nothing, what one failed
    save makes of it, or a content that does not depend on what was
    there. *)
Lemma ops_on_class ops p :
  (∀ c, ops_on ops p c = c)
  ∨ (∀ c, ops_on ops p c = op_on Cut c)
  ∨ (∃ c', ∀ c, ops_on ops p c = Some c').
Proof.
  induction ops as [|op ops IH] using rev_ind; [by left|].
  setoid_rewrite ops_on_app. cbn [ops_on].
  destruct (String.eqb (fst op) p); [|exact IH].
  destruct (snd op) as [c'|].
  - right; right. by exists c'.
  - destruct IH as [Hid|[Hcut|[c' Hc]]].
    + right; left. intros c. by rewrite Hid.
    + right; left. intros c. rewrite Hcut. by destruct c.
    + right; right. exists Truncated. intros c. by rewrite Hc.
Qed.

Lemma ops_on_twice ops p c : ops_on ops p (ops_on ops p c) = ops_on ops p c.
Proof.
  destruct (ops_on_class ops p) as [H|[H|[c' H]]]; rewrite !H;
    [done|by destruct c|done].
Qed.

Lemma apply_ops_twice ops fs :
  apply_ops ops (apply_ops ops fs) = apply_ops ops fs.
Proof. apply map_eq. intros p. rewrite !apply_ops_lookup. apply ops_on_twice. Qed.

(** Once a content was put in a file, what the file holds at the end does
    not depend on what it held at the start. *)
Lemma ops_on_put ops p (c0 : file_content image) :
  (p, Put c0) ∈ ops →
  ∃ c', (∀ c, ops_on ops p c = Some c')
        ∧ (c' = Truncated ∨ (p, Put c') ∈ ops).
Proof.
  induction ops as [|op ops IH] using rev_ind; [by intros ?%elem_of_nil|].
  setoid_rewrite ops_on_app. cbn [ops_on].
  intros [Hin|Hin%list_elem_of_singleton]%elem_of_app.
  - destruct (IH Hin) as (c' & Hc & Hc').
    destruct op as [k [c''|]]; cbn [fst snd].
    + destruct (String.eqb_spec k p) as [->|Hne].
      * exists c''. split; [done|]. right. apply elem_of_app. right.
        apply list_elem_of_here.
      * exists c'. split; [done|]. destruct Hc' as [->|Hc']; [by left|].
        right. apply elem_of_app. by left.
    + destruct (String.eqb_spec k p) as [->|Hne].
      * exists Truncated. split; [|by left]. intros c. by rewrite Hc.
      * exists c'. split; [done|]. destruct Hc' as [->|Hc']; [by left|].
        right. apply elem_of_app. by left.
  - subst op. cbn [fst snd]. rewrite String.eqb_refl. exists c0.
    split; [done|]. right. apply elem_of_app. right. apply list_elem_of_here.
Qed.

Lemma apply_ops_agree ops fs1 fs2 p (c0 : file_content image) :
  (p, Put c0) ∈ ops → apply_ops ops fs1 !! p = apply_ops ops fs2 !! p.
Proof.
  intros Hin. rewrite !apply_ops_lookup.
  destruct (ops_on_put ops p c0 Hin) as (c' & Hc & _). by rewrite !Hc.
Qed.

Lemma apply_ops_untouched ops fs p :
  p ∉ map fst ops → apply_ops ops fs !! p = fs !! p.
Proof. intros Hp. by rewrite apply_ops_lookup, ops_on_untouched. Qed.

(** The last operation on a file decides. *)
Lemma apply_ops_last ops1 ops2 fs p (op : file_op image) :
  p ∉ map fst ops2 →
  apply_ops (ops1 ++ (p, op) :: ops2) fs !! p
  = op_on op (apply_ops ops1 fs !! p).
Proof.
  intros Hp. rewrite !apply_ops_lookup, ops_on_app. cbn [ops_on fst snd].
  rewrite String.eqb_refl. by apply ops_on_untouched.
Qed.

End Ops.

(** ** What the pipeline leaves on disk *)

Section Disk.

Context {image : Type}.
Variable w : world image.

Implicit Types (st : state image) (root file input_path : string).
Implicit Types (fs : gmap string (file_content image)).

Lemma image_op_cases (output_dir : string) (entry : raw_image image) :
  let img_path := img_path_of output_dir entry in
  (saved_path w output_dir entry = Some img_path
   ∧ image_op w output_dir entry
     = Some (img_path, Put (ImageFile (fst entry))))
  ∨ (saved_path w output_dir entry = None
     ∧ (image_op w output_dir entry = Some (img_path, Cut)
        ∨ image_op w output_dir entry = None)).
Proof.
  unfold saved_path, image_op, img_path_of. cbv zeta.
  destruct (image_save w (fst entry) _); [by left|right].
  split; [done|]. destruct (save_truncates w (fst entry) _); [by left|by right].
Qed.

Lemma image_ops_targets (output_dir : string)
    (images : list (raw_image image)) (p : string) :
  p ∈ map fst (image_ops w output_dir images) →
  p ∈ map (img_path_of output_dir) images.
Proof.
  intros ([q op] & -> & Hin)%list_elem_of_fmap.
  apply list_elem_of_omap in Hin as (entry & Hentry & Hop).
  apply list_elem_of_fmap. exists entry. split; [|done].
  destruct (image_op_cases output_dir entry) as [[_ H]|[_ [H|H]]];
    rewrite H in Hop; by simplify_eq/=.
Qed.

Lemma image_ops_saved (output_dir : string)
    (images : list (raw_image image)) (p : string) :
  p ∈ omap (saved_path w output_dir) images →
  ∃ im, (p, Put (ImageFile im)) ∈ image_ops w output_dir images.
Proof.
  intros (entry & Hentry & Hs)%list_elem_of_omap. exists (fst entry).
  apply list_elem_of_omap. exists entry. split; [done|].
  destruct (image_op_cases output_dir entry) as [[Hs' H]|[Hs' _]];
    rewrite Hs' in Hs; [|done]. by simplify_eq/=.
Qed.

Lemma image_ops_puts (output_dir : string)
    (images : list (raw_image image)) (p : string)
    (c : file_content image) :
  (p, Put c) ∈ image_ops w output_dir images → ∃ im, c = ImageFile im.
Proof.
  intros (entry & _ & Hop)%list_elem_of_omap.
  destruct (image_op_cases output_dir entry) as [[_ H]|[_ [H|H]]];
    rewrite H in Hop; simplify_eq/=. eauto.
Qed.

Lemma save_images_loop_state (output_dir : string)
    (images : list (raw_image image)) (img_paths : list string) st :
  files (snd (save_images_loop w output_dir images img_paths st))
    = apply_ops (image_ops w output_dir images) (files st)
  ∧ dirs (snd (save_images_loop w output_dir images img_paths st))
    = dirs st ∪ images_dirs output_dir images.
Proof.
  revert img_paths st.
  induction images as [|[im img_name] rest IH]; intros img_paths st.
  - simpl. split; [done|]. by rewrite (right_id_L ∅ (∪)).
  - cbn [save_images_loop]. unfold bind, ensure_dir, im_save, print, emit.
    unfold image_ops. cbn [omap list_omap].
    fold (image_ops w output_dir rest).
    unfold image_op at 1, img_path_of at 1. cbn [fst snd].
    destruct (image_save w im _) as [[]|e];
      [|destruct (save_truncates w im _)];
      match goal with
      | |- context [save_images_loop w output_dir rest ?ps ?s] =>
          destruct (IH ps s) as [Hf Hd]
      end;
      rewrite Hf, Hd; cbn [files dirs];
      (split; [done|]);
      (destruct rest; simpl;
       [by rewrite (right_id_L ∅ (∪))
       |by rewrite <- (assoc_L (∪)), (idemp_L (∪) (list_to_set _))]).
Qed.

Lemma describe_image_agree fs1 fs2 (img_path : string) :
  fs1 !! img_path = fs2 !! img_path →
  describe_image w fs1 img_path = describe_image w fs2 img_path.
Proof. intros H. unfold describe_image, Image_open. by rewrite H. Qed.

Lemma add_images_loop_agree fs1 fs2 (idx : nat)
    (image_paths lines : list string) :
  (∀ p, p ∈ image_paths → fs1 !! p = fs2 !! p) →
  add_images_loop w fs1 idx image_paths lines
  = add_images_loop w fs2 idx image_paths lines.
Proof.
  revert idx lines.
  induction image_paths as [|p rest IH]; intros idx lines Hagree; [done|].
  cbn [add_images_loop].
  rewrite (describe_image_agree fs1 fs2 p)
    by (apply Hagree, list_elem_of_here).
  apply IH. intros q Hq. by apply Hagree, list_elem_of_further.
Qed.

Lemma add_images_to_markdown_agree fs1 fs2 (md : string)
    (image_paths : list string) :
  (∀ p, p ∈ image_paths → fs1 !! p = fs2 !! p) →
  add_images_to_markdown w fs1 md image_paths
  = add_images_to_markdown w fs2 md image_paths.
Proof.
  intros Hagree. unfold add_images_to_markdown, markdown_lines.
  destruct image_paths; [done|]. by rewrite (add_images_loop_agree fs1 fs2).
Qed.

(** The output tree after one file of the walk. *)
Lemma process_file_state root file st :
  files (snd (process_file w root file st))
    = apply_ops (file_ops w root file) (files st)
  ∧ dirs (snd (process_file w root file st))
    = dirs st ∪ file_dirs w root file.
Proof.
  unfold process_file, file_ops, file_dirs.
  case_bool_decide as Hext; cbn [negb].
  2:{ simpl. split; [done|]. by rewrite (right_id_L ∅ (∪)). }
  unfold bind, ensure_dir, print, emit, dispatch, bind, emit. cbn [fst snd].
  match goal with
  | |- context [convert_file w ?ip ?s] =>
      set (st1 := s);
      destruct (convert_file_effect w ip st1) as [msgs Hst];
      pose proof (convert_file_result w ip st1 blank_state) as Hres
  end.
  fold (converted w (PosixPath.join root file)) in Hres.
  destruct (convert_file w (PosixPath.join root file) st1) as [conv st2].
  cbn [fst snd] in *. subst conv st2.
  destruct (fst (converted w (PosixPath.join root file))) as [text|].
  - unfold read_files, write_text.
    pose proof (save_images_loop_state (output_dir_of w root)
                  (snd (converted w (PosixPath.join root file))) []
                  (logged (map EvPrint msgs) st1)) as [Hf Hd].
    pose proof (save_images_loop_paths w (output_dir_of w root)
                  (snd (converted w (PosixPath.join root file))) []
                  (logged (map EvPrint msgs) st1)) as Hp.
    destruct (save_images_loop w (output_dir_of w root)
                (snd (converted w (PosixPath.join root file))) []
                (logged (map EvPrint msgs) st1)) as [img_paths st3].
    cbn [fst snd files dirs] in *. subst img_paths. rewrite Hf, Hd.
    split; [|unfold st1; simpl; by rewrite (assoc_L (∪))].
    rewrite apply_ops_app. cbn [apply_ops foldl apply_op fst snd].
    unfold md_output_path_of. f_equal. f_equal.
    apply add_images_to_markdown_agree. intros p Hp.
    destruct (image_ops_saved _ _ _ Hp) as [im Him].
    by apply (apply_ops_agree _ _ _ _ (ImageFile im)).
  - simpl. split; [done|]. by rewrite (right_id_L ∅ (∪)).
Qed.

Lemma document_converters_return_text input_path st :
  is_Some (fst (fst (convert_pdf w input_path st)))
  ∧ is_Some (fst (fst (convert_docx w input_path st)))
  ∧ is_Some (fst (fst (convert_pptx w input_path st))).
Proof.
  split; [|split].
  - destruct (pdfplumber_open w input_path) as [pages|e] eqn:Hopen.
    + rewrite (convert_pdf_read w _ pages st Hopen). by eexists.
    + unfold convert_pdf. rewrite Hopen. by eexists.
  - unfold convert_docx. destruct (Document w input_path) as [doc|e];
      by eexists.
  - destruct (Presentation w input_path) as [slides|e] eqn:Hopen.
    + rewrite (convert_pptx_read w _ slides st Hopen). by eexists.
    + unfold convert_pptx. rewrite Hopen. by eexists.
Qed.

Lemma for_each_files_state root (names : list string) st :
  files (snd (for_each names (process_file w root) st))
    = apply_ops (flat_map (file_ops w root) names) (files st)
  ∧ dirs (snd (for_each names (process_file w root) st))
    = dirs st ∪ ⋃ (map (file_dirs w root) names).
Proof.
  revert st. induction names as [|f rest IH]; intros st.
  - simpl. split; [done|]. by rewrite (right_id_L ∅ (∪)).
  - cbn [for_each flat_map map]. unfold bind.
    pose proof (process_file_state root f st) as [Hf Hd].
    destruct (process_file w root f st) as [[] st1]. cbn [snd] in *.
    destruct (IH st1) as [Hf' Hd']. rewrite Hf', Hd', Hf, Hd.
    rewrite apply_ops_app. split; [done|].
    simpl. by rewrite (assoc_L (∪)).
Qed.

Lemma for_each_dirs_state
    (entries : list (string * list string * list string)) st :
  files (snd (for_each entries (process_dir w) st))
    = apply_ops (flat_map (dir_ops w) entries) (files st)
  ∧ dirs (snd (for_each entries (process_dir w) st))
    = dirs st ∪ ⋃ (map (dir_dirs w) entries).
Proof.
  revert st. induction entries as [|entry rest IH]; intros st.
  - simpl. split; [done|]. by rewrite (right_id_L ∅ (∪)).
  - cbn [for_each flat_map map]. unfold bind.
    assert (files (snd (process_dir w entry st))
              = apply_ops (dir_ops w entry) (files st)
            ∧ dirs (snd (process_dir w entry st))
              = dirs st ∪ dir_dirs w entry) as [Hf Hd].
    { destruct entry as [[root ds] names]. apply for_each_files_state. }
    destruct (process_dir w entry st) as [[] st1]. cbn [snd] in *.
    destruct (IH st1) as [Hf' Hd']. rewrite Hf', Hd', Hf, Hd.
    rewrite apply_ops_app. split; [done|].
    simpl. by rewrite (assoc_L (∪)).
Qed.

(** The output tree after a run. *)
Lemma run_pipeline_state st :
  files (snd (run_pipeline w st)) = apply_ops (run_ops w) (files st)
  ∧ dirs (snd (run_pipeline w st)) = dirs st ∪ run_dirs w.
Proof.
  unfold run_pipeline, run_ops, run_dirs, bind, print, emit.
  cbn [fst snd]. destruct (raw_tree w) as [t|].
  - match goal with
    | |- context [for_each (walk RAW_DIR t) (process_dir w) ?s] =>
        destruct (for_each_dirs_state (walk RAW_DIR t) s) as [Hf Hd];
        destruct (for_each (walk RAW_DIR t) (process_dir w) s) as [[] st1]
    end.
    cbn [fst snd files dirs] in *. by rewrite Hf, Hd.
  - simpl. split; [done|]. by rewrite (right_id_L ∅ (∪)).
Qed.

Lemma image_ops_app (output_dir : string)
    (before after : list (raw_image image)) :
  image_ops w output_dir (before ++ after)
  = image_ops w output_dir before ++ image_ops w output_dir after.
Proof. apply omap_app. Qed.

(** The file of the last save attempted on a path, after the save loop. *)
Lemma save_images_loop_last (output_dir : string)
    (before after : list (raw_image image)) (entry : raw_image image) st :
  let p := img_path_of output_dir entry in
  p ∉ map (img_path_of output_dir) after →
  files (snd (save_images_loop w output_dir (before ++ entry :: after) [] st))
    !! p
  = ops_on (option_list (image_op w output_dir entry)) p
      (files (snd (save_images_loop w output_dir before [] st)) !! p).
Proof.
  intros p Hafter.
  destruct (save_images_loop_state output_dir (before ++ entry :: after) []
              st) as [-> _].
  destruct (save_images_loop_state output_dir before [] st) as [-> _].
  change (entry :: after) with ([entry] ++ after).
  rewrite !image_ops_app, !apply_ops_app.
  rewrite apply_ops_untouched
    by (intros Hin; by apply Hafter, image_ops_targets).
  rewrite apply_ops_lookup. unfold image_ops. cbn [omap list_omap].
  by destruct (image_op w output_dir entry).
Qed.

(** X7.  After the save loop, a path it returns holds an image file, or
    is left truncated when a later save to the same path failed after
    opening it; a path no save was attempted on holds what it held before;
    and the last save attempted on a path decides what it holds: the saved
    bitmap when the save succeeds; when the save fails after opening the
    file, a truncated file if the file was there before that save and no
    file if it was not; and what it held before that save when the save
    fails before opening the file. *)
Theorem saved_images_on_disk (output_dir : string)
    (images : list (raw_image image)) st :
  let img_paths := fst (save_images_loop w output_dir images [] st) in
  let st' := snd (save_images_loop w output_dir images [] st) in
  (∀ p, p ∈ img_paths →
        files st' !! p = Some Truncated
        ∨ ∃ im, files st' !! p = Some (ImageFile im))
  ∧ (∀ p, p ∉ map (fun entry =>
                     PosixPath.join (PosixPath.join output_dir "images")
                       (snd entry)) images →
          files st' !! p = files st !! p)
  ∧ (∀ before im img_name after,
       images = before ++ (im, img_name) :: after →
       let p :=
         PosixPath.join (PosixPath.join output_dir "images") img_name in
       let before_save := snd (save_images_loop w output_dir before [] st) in
       p ∉ map (fun entry =>
                  PosixPath.join (PosixPath.join output_dir "images")
                    (snd entry)) after →
       (image_save w im p = Ok tt → files st' !! p = Some (ImageFile im))
       ∧ (∀ e, image_save w im p = Raise e →
               save_truncates w im p = true →
               files st' !! p
               = match files before_save !! p with
                 | Some _ => Some Truncated
                 | None => None
                 end)
       ∧ (∀ e, image_save w im p = Raise e →
               save_truncates w im p = false →
               files st' !! p = files before_save !! p)).
Proof.
  intros img_paths st'. subst img_paths st'.
  rewrite save_images_loop_paths.
  destruct (save_images_loop_state output_dir images [] st) as [Hfiles _].
  split; [|split].
  - intros p Hp. rewrite Hfiles, apply_ops_lookup.
    destruct (image_ops_saved _ _ _ Hp) as [im Him].
    destruct (ops_on_put _ _ _ Him) as (c' & Hc & [-> | Hput]);
      rewrite Hc; [by left|right].
    destruct (image_ops_puts _ _ _ _ Hput) as [im' ->]. by exists im'.
  - intros p Hp. rewrite Hfiles. apply apply_ops_untouched.
    intros Hin. by apply Hp, image_ops_targets.
  - intros before im img_name after -> p before_save Hafter.
    pose proof (save_images_loop_last output_dir before after (im, img_name)
                  st Hafter) as Hlast.
    unfold img_path_of in Hlast. cbn [snd] in Hlast. fold p in Hlast.
    unfold image_op, img_path_of in Hlast. cbn [fst snd] in Hlast.
    fold p in Hlast. split; [|split].
    + intros Hok. etrans; [exact Hlast|]. rewrite Hok.
      cbn [option_list option_rect ops_on fst snd op_on].
      by rewrite String.eqb_refl.
    + intros e He Ht. etrans; [exact Hlast|]. rewrite He, Ht.
      cbn [option_list option_rect ops_on fst snd op_on].
      by rewrite String.eqb_refl.
    + intros e He Ht. etrans; [exact Hlast|]. by rewrite He, Ht.
Qed.

(** X8.  When the conversion of a supported file returns a text and no
    call of the run raises, that is when the output tree stays free of
    clashes, the pipeline leaves the output files as the saves of the
    extracted images leave them (the bitmap where a save succeeds, a
    truncated file where a save fails after opening a file that was
    there), and then the Markdown file, whose content is the text
    assembled with exactly the paths of the images whose save succeeded,
    each described from its file as it is after all the saves. *)
Theorem process_file_writes_markdown root file st (text : string) :
  file_ext file ∈ SUPPORTED_TYPES →
  fst (fst (convert_file w (PosixPath.join root file) st)) = Some text →
  clash_free (snd (process_file w root file st)) →
  let images := snd (fst (convert_file w (PosixPath.join root file) st)) in
  let output_dir := PosixPath.join OUTPUT_DIR (relpath w root RAW_DIR) in
  let saved := apply_ops (image_ops w output_dir images) (files st) in
  let md_output_path :=
    PosixPath.join output_dir (fst (PosixPath.splitext file) +:+ ".md") in
  files (snd (process_file w root file st))
  = <[md_output_path :=
        TextFile (add_images_to_markdown w saved text
                    (omap (saved_path w output_dir) images))]> saved.
Proof.
  intros Hext Htext _ images output_dir saved md_output_path.
  destruct (process_file_state root file st) as [-> _].
  unfold file_ops. rewrite bool_decide_eq_true_2 by done.
  unfold converted.
  rewrite (convert_file_result w _ blank_state st), Htext.
  fold images. cbv zeta. unfold output_dir_of. fold output_dir.
  rewrite apply_ops_app. cbn [apply_ops foldl apply_op fst snd].
  fold saved. unfold md_output_path_of, output_dir_of.
  fold output_dir md_output_path. f_equal. f_equal.
  apply add_images_to_markdown_agree. intros p Hp.
  destruct (image_ops_saved _ _ _ Hp) as [im Him].
  by apply (apply_ops_agree _ _ _ _ (ImageFile im)).
Qed.

(** X9.  A PDF, DOCX or PPTX entry of the walk is never skipped: its
    conversion always returns a text, and when no call of the run raises,
    that is when the output tree stays free of clashes, its Markdown file
    exists after it is processed, even when the document could not be
    opened. *)
Theorem documents_are_never_skipped root file st :
  contains "/" file = false →
  file_ext file = ".pdf" ∨ file_ext file = ".docx" ∨ file_ext file = ".pptx" →
  is_Some (fst (fst (convert_file w (PosixPath.join root file) st)))
  ∧ (clash_free (snd (process_file w root file st)) →
     ∃ content,
       files (snd (process_file w root file st))
         !! PosixPath.join (PosixPath.join OUTPUT_DIR (relpath w root RAW_DIR))
              (fst (PosixPath.splitext file) +:+ ".md")
       = Some (TextFile content)).
Proof.
  intros Hname Hkind.
  assert (file_ext file ∈ SUPPORTED_TYPES) as Hext.
  { unfold SUPPORTED_TYPES. rewrite !elem_of_union, !elem_of_singleton.
    tauto. }
  assert (∀ s, is_Some (fst (fst (convert_file w (PosixPath.join root file)
                                    s)))) as Hsome.
  { intros s. unfold convert_file. rewrite splitext_ext_join by done.
    fold (file_ext file).
    destruct (document_converters_return_text (PosixPath.join root file) s)
      as (Hpdf & Hdocx & Hpptx).
    destruct Hkind as [-> | [-> | ->]]; done. }
  split; [done|]. intros _. destruct (Hsome st) as [text Htext].
  destruct (process_file_state root file st) as [-> _].
  unfold file_ops. rewrite bool_decide_eq_true_2 by done.
  unfold converted.
  rewrite (convert_file_result w _ blank_state st), Htext. cbv zeta.
  eexists. unfold md_output_path_of, output_dir_of.
  rewrite apply_ops_last by (simpl; apply not_elem_of_nil). done.
Qed.

(** X10.  Running the pipeline a second time in the same world leaves the
    output tree as the first run left it: the same directories and, path
    by path, the same files. *)
Theorem pipeline_idempotent st :
  let st1 := snd (run_pipeline w st) in
  let st2 := snd (run_pipeline w st1) in
  files st2 = files st1 ∧ dirs st2 = dirs st1.
Proof.
  intros st1 st2. subst st1 st2.
  destruct (run_pipeline_state (snd (run_pipeline w st))) as [-> ->].
  destruct (run_pipeline_state st) as [-> ->].
  split; [apply apply_ops_twice|].
  by rewrite <- (assoc_L (∪)), (idemp_L (∪) (run_dirs w)).
Qed.

End Disk.

(** ** Runs in which no call raises *)

Section NoRaise.

Context {image : Type}.
Variable w : world image.

Implicit Types (s st : state image) (root file : string).























End NoRaise.

(** ** Whitespace *)

Lemma rstrip_cons (c : ascii) (s : string) :
  rstrip (String c s)
  = match rstrip s with
    | EmptyString => if isspace c then EmptyString else String c EmptyString
    | r => String c r
    end.
Proof. reflexivity. Qed.

Lemma rstrip_rstrip (s : string) : rstrip (rstrip s) = rstrip s.
Proof.
  induction s as [|c s IH]; [done|]. rewrite rstrip_cons.
  destruct (rstrip s) as [|d r] eqn:Hr.
  - destruct (isspace c) eqn:Hc; [done|]. rewrite rstrip_cons. simpl.
    by rewrite Hc.
  - by rewrite rstrip_cons, IH.
Qed.

Lemma lstrip_no_leading_space (s : string) : no_leading_space (lstrip s).
Proof.
  induction s as [|c s IH]; [done|]. cbn [lstrip].
  by destruct (isspace c) eqn:Hc.
Qed.

Lemma rstrip_no_leading_space (s : string) :
  no_leading_space s → no_leading_space (rstrip s).
Proof.
  destruct s as [|c s]; [done|]. rewrite rstrip_cons. simpl. intros Hc.
  destruct (rstrip s); [by rewrite Hc|done].
Qed.

Lemma lstrip_fixed (s : string) : no_leading_space s → lstrip s = s.
Proof. destruct s as [|c s]; [done|]. simpl. by intros ->. Qed.

Lemma strip_strip (s : string) : strip (strip s) = strip s.
Proof.
  unfold strip. rewrite (lstrip_fixed (rstrip (lstrip s))).
  - apply rstrip_rstrip.
  - apply rstrip_no_leading_space, lstrip_no_leading_space.
Qed.

(** ** Entries the pipeline passes over *)

Lemma StronglySorted_filter {A} (R : relation A) (P : A → Prop)
    `{!∀ x, Decision (P x)} (l : list A) :
  StronglySorted R l → StronglySorted R (filter P l).
Proof.
  induction 1 as [|x l Hl IH Hx]; [constructor|].
  rewrite filter_cons. destruct (decide (P x)); [|done].
  constructor; [done|]. apply Forall_forall.
  intros y [_ Hy]%list_elem_of_filter.
  by apply (proj1 (Forall_forall _ _) Hx).
Qed.

Lemma sorted_filter (P : string → Prop) `{!∀ x, Decision (P x)}
    (names : list string) :
  sorted (filter P names) = filter P (sorted names).
Proof.
  apply (Sorted_unique str_le).
  - apply sorted_Sorted.
  - apply StronglySorted_Sorted, StronglySorted_filter.
    apply StronglySorted_merge_sort; apply _.
  - by rewrite !sorted_Permutation.
Qed.

Section PassedOver.

Context {image : Type}.
Variable w : world image.

Implicit Types (st : state image) (root file input_path : string).

Lemma for_each_filter {A} (P : A → Prop) `{!∀ x, Decision (P x)}
    (body : A → M image unit) (l : list A) st :
  (∀ x s, ¬ P x → body x s = (tt, s)) →
  for_each l body st = for_each (filter P l) body st.
Proof.
  intros Hskip. revert st. induction l as [|x l IH]; intros st; [done|].
  rewrite filter_cons. destruct (decide (P x)) as [Hx|Hx].
  - cbn [for_each]. unfold bind. destruct (body x st) as [[] st1]. apply IH.
  - cbn [for_each]. unfold bind. rewrite (Hskip x st Hx). apply IH.
Qed.

Lemma for_each_skip {A} (body : A → M image unit) (l : list A) st :
  (∀ x s, x ∈ l → body x s = (tt, s)) → for_each l body st = (tt, st).
Proof.
  revert st. induction l as [|x l IH]; intros st Hskip; [done|].
  cbn [for_each]. unfold bind.
  rewrite (Hskip x st) by apply list_elem_of_here.
  apply IH. intros y s Hy. by apply Hskip, list_elem_of_further.
Qed.

Lemma convert_file_generic input_path st :
  lower (snd (PosixPath.splitext input_path)) ∈ GENERIC_TYPES →
  convert_file w input_path st = convert_generic w input_path st.
Proof.
  intros Hext. unfold convert_file.
  set (ext := lower (snd (PosixPath.splitext input_path))) in *.
  unfold GENERIC_TYPES in Hext.
  rewrite !elem_of_union, !elem_of_singleton in Hext.
  destruct (String.eqb_spec ext ".pdf") as [Hpdf|_];
    [rewrite Hpdf in Hext; by destruct Hext as [[[?|?]|?]|?]|].
  destruct (String.eqb_spec ext ".docx") as [Hdocx|_];
    [rewrite Hdocx in Hext; by destruct Hext as [[[?|?]|?]|?]|].
  destruct (String.eqb_spec ext ".pptx") as [Hpptx|_];
    [rewrite Hpptx in Hext; by destruct Hext as [[[?|?]|?]|?]|].
  rewrite bool_decide_eq_true_2; [done|].
  unfold GENERIC_TYPES. rewrite !elem_of_union, !elem_of_singleton. tauto.
Qed.

(** X11.  When the image opens and the OCR engine answers, the
    description is never empty and has no whitespace left at either end:
    stripping it again changes nothing. *)
Theorem description_is_clean (fs : gmap string (file_content image))
    (img_path : string) (img : image) (text : string) :
  Image_open w fs img_path = Ok img →
  image_to_string w img = Ok text →
  describe_image w fs img_path ≠ ""
  ∧ strip (describe_image w fs img_path) = describe_image w fs img_path.
Proof.
  intros Hopen Hocr. unfold describe_image. rewrite Hopen, Hocr.
  destruct (String.eqb_spec (strip text) "") as [He|He].
  - split; [discriminate|reflexivity].
  - split; [done|apply strip_strip].
Qed.

(** X12.  Entries whose extension is not supported are invisible to the
    pipeline: a directory is processed exactly as if its listing held only
    the supported entries, with the same effects in the same order. *)
Theorem unsupported_entries_invisible root (subdirs names : list string) st :
  process_dir w (root, subdirs, names) st
  = process_dir w
      (root, subdirs, filter (fun f => file_ext f ∈ SUPPORTED_TYPES) names)
      st.
Proof.
  unfold process_dir. rewrite sorted_filter.
  apply for_each_filter. intros f s Hf. by apply process_file_unsupported.
Qed.

(** X13.  When the input root is missing the run prints two lines and
    touches nothing; when the tree holds no supported file the run prints
    its first and last line and touches nothing: no directory is created
    and no file is written. *)
Theorem nothing_to_convert st :
  (raw_tree w = None →
   run_pipeline w st
   = (tt, logged [EvPrint MsgStarting; EvPrint (MsgNoFolder "data")] st))
  ∧ (∀ t, raw_tree w = Some t →
       (∀ entry f, entry ∈ walk RAW_DIR t → f ∈ snd entry →
                   file_ext f ∉ SUPPORTED_TYPES) →
       run_pipeline w st
       = (tt, logged [EvPrint MsgStarting; EvPrint MsgDone] st)).
Proof.
  split.
  - intros Htree. unfold run_pipeline. rewrite Htree.
    unfold bind, print, emit, logged. simpl. by rewrite <- app_assoc.
  - intros t Htree Hnone. unfold run_pipeline. rewrite Htree.
    unfold bind, print, emit. cbn [fst snd].
    rewrite for_each_skip.
    + unfold logged. simpl. by rewrite <- app_assoc.
    + intros [[root ds] names] s Hentry. unfold process_dir.
      apply for_each_skip. intros f s' Hf.
      apply process_file_unsupported. apply (Hnone _ f Hentry).
      cbn [snd]. by rewrite <- (sorted_Permutation names).
Qed.

(** X14.  When no call of the run raises, that is when the output tree
    stays free of clashes, an entry with one of the extensions handed to
    the conversion tool, which the tool converts, leaves exactly one new
    file, the Markdown file holding the tool's output unchanged, and one
    ensured directory, the output folder; no [images] folder is created. *)
Theorem generic_file_written root file st (text : string) :
  contains "/" file = false →
  file_ext file ∈ GENERIC_TYPES →
  pypandoc_convert_file w (PosixPath.join root file) = Ok text →
  clash_free (snd (process_file w root file st)) →
  let output_dir := PosixPath.join OUTPUT_DIR (relpath w root RAW_DIR) in
  let md_output_path :=
    PosixPath.join output_dir (fst (PosixPath.splitext file) +:+ ".md") in
  snd (process_file w root file st)
  = {| dirs := dirs st ∪ list_to_set (PosixPath.dir_chain output_dir);
       files := <[md_output_path := TextFile text]> (files st);
       trace := trace st
                ++ [ EvMakedirs output_dir;
                     EvPrint (MsgProcessing (PosixPath.join root file));
                     EvConvert (PosixPath.join root file);
                     EvWrite md_output_path ] |}.
Proof.
  intros Hname Hext Hconv _ output_dir md_output_path.
  assert (file_ext file ∈ SUPPORTED_TYPES) as Hsup.
  { unfold GENERIC_TYPES in Hext. unfold SUPPORTED_TYPES.
    rewrite !elem_of_union, !elem_of_singleton in *. tauto. }
  unfold process_file. rewrite bool_decide_eq_true_2 by done. cbn [negb].
  unfold bind, ensure_dir, print, emit, dispatch, bind, emit. cbn [fst snd].
  rewrite convert_file_generic
    by (unfold file_ext in Hext; by rewrite splitext_ext_join).
  unfold convert_generic. rewrite Hconv. unfold ret. cbn [fst snd].
  cbn [save_images_loop]. unfold ret, read_files, write_text.
  cbn [fst snd dirs files trace add_images_to_markdown].
  unfold output_dir_of. fold output_dir. fold md_output_path.
  f_equal. by rewrite <- !app_assoc.
Qed.

End PassedOver.

(** ** Pictures of one slide *)

Lemma append_inj_r (a b c : string) : a +:+ b = a +:+ c → b = c.
Proof.
  induction a as [|x a IH]; [done|]. intros H. apply IH.
  exact (string_cons_inj x _ _ H).
Qed.

Lemma join_inj_r (a b c : string) :
  startswith "/" b = false → startswith "/" c = false →
  PosixPath.join a b = PosixPath.join a c → b = c.
Proof.
  unfold PosixPath.join. intros -> ->.
  destruct (_ || _); intros H; apply append_inj_r in H; [done|].
  by apply (append_inj_r "/") in H.
Qed.

Section SameSlide.

Context {image : Type}.
Variable w : world image.

Implicit Types (st : state image).

Lemma deck_pictures_around (slide_idx : nat) (slides : list (slide image))
    (k0 : nat) (sl : slide image) :
  slides !! k0 = Some sl →
  deck_pictures slide_idx slides
  = deck_pictures slide_idx (take k0 slides)
    ++ map (fun im => (im, slide_idx + k0)) (slide_pictures sl)
    ++ deck_pictures (S (slide_idx + k0)) (drop (S k0) slides).
Proof.
  revert slide_idx k0.
  induction slides as [|s rest IH]; intros slide_idx k0 Hk; [done|].
  destruct k0 as [|k0]; simpl in Hk.
  - injection Hk as ->. simpl. by rewrite Nat.add_0_r.
  - cbn [take drop deck_pictures]. rewrite (IH (S slide_idx) k0 Hk).
    rewrite <- app_assoc.
    by replace (slide_idx + S k0) with (S slide_idx + k0) by lia.
Qed.

(** X15.  When several pictures of a slide are read, they are all saved
    under the one name of the slide: after the save loop that file holds
    the bitmap of the last picture read from the slide, provided its save
    succeeds, and the earlier pictures of the slide are lost.  The pictures
    read are those before the first shape on which the reader raises. *)
Theorem last_picture_of_slide_wins input_path (slides : list (slide image))
    (k0 : nat) (sl : slide image) (earlier : list image) (im : image)
    (output_dir : string) st0 st :
  Presentation w input_path = Ok slides →
  slides_read slides !! k0 = Some sl →
  slide_pictures sl = earlier ++ [im] →
  let img_path :=
    PosixPath.join (PosixPath.join output_dir "images")
      ("img_slide" +:+ str_of_nat (S k0) +:+ ".png") in
  image_save w im img_path = Ok tt →
  let images := snd (fst (convert_pptx w input_path st0)) in
  let saved := save_images_loop w output_dir images [] st in
  img_path ∈ fst saved
  ∧ files (snd saved) !! img_path = Some (ImageFile im).
Proof.
  intros Hopen Hk Hpics img_path Hsave images saved.
  assert (images = map (fun e => (fst e, pptx_img_name (snd e)))
                     (deck_pictures 1 (slides_read slides))) as Himages.
  { subst images. by rewrite (convert_pptx_read w _ slides st0 Hopen). }
  rewrite (deck_pictures_around 1 (slides_read slides) k0 sl Hk), Hpics
    in Himages.
  change (1 + k0) with (S k0) in Himages.
  rewrite !map_app in Himages. cbn [map fst snd] in Himages.
  rewrite !(assoc_L (++)) in Himages. rewrite <- (assoc_L (++)) in Himages.
  cbn [app] in Himages.
  assert (saved_path w output_dir (im, pptx_img_name (S k0)) = Some img_path)
    as Hsaved.
  { unfold saved_path. cbn [fst snd].
    change (PosixPath.join (PosixPath.join output_dir "images")
              (pptx_img_name (S k0))) with img_path.
    by rewrite Hsave. }
  assert (img_path
            ∉ map (img_path_of output_dir)
                (map (fun e => (fst e, pptx_img_name (snd e)))
                   (deck_pictures (S (S k0))
                      (drop (S k0) (slides_read slides))))) as Hafter.
  { intros (entry & Heq & Hin)%list_elem_of_fmap.
    apply list_elem_of_fmap in Hin as ([im' k] & -> & Hin).
    apply elem_of_deck_pictures in Hin as (j & _ & _ & -> & _).
    unfold img_path_of in Heq. cbn [fst snd] in Heq.
    apply join_inj_r in Heq; [|done..].
    apply pptx_img_name_inj in Heq. lia. }
  subst saved. split.
  - rewrite save_images_loop_paths, Himages, omap_app. cbn [app omap list_omap].
    rewrite Hsaved. apply elem_of_app. right. apply list_elem_of_here.
  - rewrite Himages.
    etrans; [exact (save_images_loop_last w output_dir _ _
                      (im, pptx_img_name (S k0)) st Hafter)|].
    unfold image_op, img_path_of. cbn [fst snd].
    change (PosixPath.join (PosixPath.join output_dir "images")
              (pptx_img_name (S k0))) with img_path.
    rewrite Hsave. cbn [option_list option_rect ops_on fst snd op_on].
    by rewrite String.eqb_refl.
Qed.

End SameSlide.

(** ** Further worked instances *)

(** The sample report: two pages, three image regions on the first, the
    second of which cannot be cropped.  The torn PDF: the reader fails on
    the second of three pages. *)
Lemma pdf_extraction_witness :
  pdfplumber_open Sample.world "data/report.pdf" = Ok Sample.report
  ∧ convert_pdf Sample.world "data/report.pdf" Sample.empty_state
    = ((Some ("page one" +:+ nl +:+ nl),
        [(7, "img_1_1.png"); (9, "img_1_3.png")]),
       Sample.empty_state)
  ∧ pdfplumber_open Sample.world "data/torn.pdf" = Ok Sample.torn
  ∧ convert_pdf Sample.world "data/torn.pdf" Sample.empty_state
    = ((Some "page one", [(7, "img_1_1.png")]),
       logged [EvPrint (MsgPdfFailed "data/torn.pdf" "bad page stream")]
         Sample.empty_state).
Proof.
  split; [reflexivity|].
  split; [exact (proj1 (pdf_extraction Sample.world "data/report.pdf"
                          Sample.report Sample.empty_state eq_refl))|].
  split; [reflexivity|].
  exact (proj1 (pdf_extraction Sample.world "data/torn.pdf" Sample.torn
                  Sample.empty_state eq_refl)).
Defined.

(** The album: both pictures of the slide get the same name.  The odd
    deck: the picture after the shape of unknown type is not extracted. *)
Lemma pptx_pictures_witness :
  Presentation Album.world "data/album.pptx" = Ok Album.deck
  ∧ snd (fst (convert_pptx Album.world "data/album.pptx" Sample.empty_state))
    = [(4, "img_slide1.png"); (5, "img_slide1.png")]
  ∧ ¬ NoDup (map snd (snd (fst (convert_pptx Album.world "data/album.pptx"
                                  Sample.empty_state))))
  ∧ Presentation Sample.world "data/odd.pptx" = Ok Sample.odd_deck
  ∧ snd (fst (convert_pptx Sample.world "data/odd.pptx" Sample.empty_state))
    = [(4, "img_slide1.png")].
Proof.
  split; [reflexivity|].
  destruct (pptx_pictures Album.world "data/album.pptx" Album.deck
              Sample.empty_state eq_refl) as (Himages & _ & Hdup & _).
  split; [exact Himages|].
  split; [refine (Hdup 0 _ eq_refl _); apply le_n|].
  split; [reflexivity|].
  exact (proj1 (pptx_pictures Sample.world "data/odd.pptx" Sample.odd_deck
                  Sample.empty_state eq_refl)).
Defined.

(** The mixed deck: the second picture of the slide is refused by the
    encoder after the file of the first was opened again, which leaves
    that file truncated. *)
Lemma saved_images_on_disk_witness :
  fst (save_images_loop Sample.world "clean_md/."
         [(4, "img_slide1.png"); (9, "img_slide1.png")] []
         Sample.empty_state)
    = ["clean_md/./images/img_slide1.png"]
  ∧ files (snd (save_images_loop Sample.world "clean_md/."
                  [(4, "img_slide1.png"); (9, "img_slide1.png")] []
                  Sample.empty_state))
      !! "clean_md/./images/img_slide1.png" = Some Truncated.
Proof.
  split; [reflexivity|].
  destruct (saved_images_on_disk Sample.world "clean_md/."
              [(4, "img_slide1.png"); (9, "img_slide1.png")]
              Sample.empty_state) as (_ & _ & Hlast).
  pose proof (Hlast [(4, "img_slide1.png")] 9 "img_slide1.png" [] eq_refl)
    as H.
  cbv zeta in H. destruct (H (not_elem_of_nil _)) as (_ & Hcut & _).
  exact (Hcut _ eq_refl eq_refl).
Defined.

(** The deck is written with its one picture. *)
Lemma process_file_writes_markdown_witness :
  file_ext "deck.pptx" ∈ SUPPORTED_TYPES
  ∧ clash_free (snd (process_file Sample.world "data" "deck.pptx"
                       Sample.empty_state))
  ∧ files (snd (process_file Sample.world "data" "deck.pptx"
                  Sample.empty_state))
      !! "clean_md/./images/img_slide1.png" = Some (ImageFile 3)
  ∧ files (snd (process_file Sample.world "data" "deck.pptx"
                  Sample.empty_state))
      !! "clean_md/./deck.md"
    = Some (TextFile
              ("# Slide 1" +:+ nl +:+ nl +:+ "a" +:+ nl +:+ nl +:+ "b"
               +:+ nl +:+ nl +:+ "# Slide 2" +:+ nl +:+ nl +:+ nl
               +:+ "## Extracted Images" +:+ nl +:+ nl
               +:+ "![Figure 1](images/img_slide1.png)" +:+ nl
               +:+ "**Description:** Total: 42" +:+ nl)).
Proof.
  assert (file_ext "deck.pptx" ∈ SUPPORTED_TYPES) as Hext
    by (apply sample_supported; vm_compute; reflexivity).
  assert (clash_free (snd (process_file Sample.world "data" "deck.pptx"
                             Sample.empty_state))) as Hfree
    by (apply clash_freeb_sound; vm_compute; reflexivity).
  split; [exact Hext|split; [exact Hfree|]].
  rewrite (process_file_writes_markdown Sample.world "data" "deck.pptx"
             Sample.empty_state _ Hext eq_refl Hfree).
  split; vm_compute; reflexivity.
Defined.

(** A PDF that cannot be opened still gets its (empty) Markdown file. *)
Lemma documents_are_never_skipped_witness :
  contains "/" "ghost.pdf" = false
  ∧ file_ext "ghost.pdf" = ".pdf"
  ∧ pdfplumber_open Sample.world "data/ghost.pdf" = Raise "not a PDF"
  ∧ clash_free (snd (process_file Sample.world "data" "ghost.pdf"
                       Sample.empty_state))
  ∧ ∃ content,
      files (snd (process_file Sample.world "data" "ghost.pdf"
                    Sample.empty_state)) !! "clean_md/./ghost.md"
      = Some (TextFile content).
Proof.
  assert (clash_free (snd (process_file Sample.world "data" "ghost.pdf"
                             Sample.empty_state))) as Hfree
    by (apply clash_freeb_sound; vm_compute; reflexivity).
  split; [reflexivity|split; [reflexivity|split; [reflexivity|]]].
  split; [exact Hfree|].
  exact (proj2 (documents_are_never_skipped Sample.world "data" "ghost.pdf"
                  Sample.empty_state eq_refl (or_introl eq_refl)) Hfree).
Defined.

(** The description of the readable sample image. *)
Lemma description_is_clean_witness :
  Image_open Sample.world Sample.pictures "clean_md/images/total.png" = Ok 1
  ∧ image_to_string Sample.world 1 = Ok (" Total: 42 " +:+ nl)
  ∧ strip (describe_image Sample.world Sample.pictures
             "clean_md/images/total.png")
    = describe_image Sample.world Sample.pictures "clean_md/images/total.png".
Proof.
  split; [reflexivity|split; [reflexivity|]].
  exact (proj2 (description_is_clean Sample.world Sample.pictures
                  "clean_md/images/total.png" 1 _ eq_refl eq_refl)).
Defined.

(** The sample HTML file. *)
Lemma generic_file_written_witness :
  contains "/" "notes.html" = false
  ∧ file_ext "notes.html" ∈ GENERIC_TYPES
  ∧ pypandoc_convert_file Sample.world "data/notes.html" = Ok "hello"
  ∧ clash_free (snd (process_file Sample.world "data" "notes.html"
                       Sample.empty_state))
  ∧ files (snd (process_file Sample.world "data" "notes.html"
                  Sample.empty_state))
    = {[ "clean_md/./notes.md" := TextFile "hello" ]}.
Proof.
  assert (file_ext "notes.html" ∈ GENERIC_TYPES) as Hext.
  { apply (bool_decide_eq_true_1 _). vm_compute. reflexivity. }
  assert (clash_free (snd (process_file Sample.world "data" "notes.html"
                             Sample.empty_state))) as Hfree
    by (apply clash_freeb_sound; vm_compute; reflexivity).
  split; [reflexivity|split; [exact Hext|split; [reflexivity|]]].
  split; [exact Hfree|].
  exact (f_equal files
           (generic_file_written Sample.world "data" "notes.html"
              Sample.empty_state "hello" eq_refl Hext eq_refl Hfree)).
Defined.

(** The album: the slide's file holds the second picture. *)
Lemma last_picture_of_slide_wins_witness :
  Presentation Album.world "data/album.pptx" = Ok Album.deck
  ∧ files (snd (save_images_loop Album.world "clean_md/."
                  (snd (fst (convert_pptx Album.world "data/album.pptx"
                               Sample.empty_state))) [] Sample.empty_state))
      !! "clean_md/./images/img_slide1.png" = Some (ImageFile 5)
  ∧ fst (save_images_loop Album.world "clean_md/."
           (snd (fst (convert_pptx Album.world "data/album.pptx"
                        Sample.empty_state))) [] Sample.empty_state)
    = [ "clean_md/./images/img_slide1.png";
        "clean_md/./images/img_slide1.png" ].
Proof.
  split; [reflexivity|]. split; [|reflexivity].
  exact (proj2 (last_picture_of_slide_wins Album.world "data/album.pptx"
                  Album.deck 0 _ [4] 5 "clean_md/." Sample.empty_state
                  Sample.empty_state eq_refl eq_refl eq_refl eq_refl)).
Defined.
